(** * An MCP client and its demo tool server, embedded in Rocq

    The development follows the two Python sources of the repository:

    - [tools.py], the demo tool server: [echo], [convert_temperature]
      and [word_count] are pure functions of their arguments;
    - [client.py], the [MCPClient] class: [connect_to_server],
      [process_query] and [chat_loop] talk to a tool process and to a
      chat-completion backend.

    Python values are modelled as the code has them: a [str] is a
    sequence of Unicode code points, a [float] is an IEEE 754 binary64
    number, a [dict] built by the client is a record with optional
    fields, and every call that leaves the process is an event of a
    trace, together with what came back. *)

From Stdlib Require Import String Ascii DecimalString SpecFloat.
From Stdlib Require Import DecimalPos DecimalN.
From Stdlib Require Import List NArith ZArith Bool Lia.
Import ListNotations.

Set Implicit Arguments.

(* ===================================================================== *)
(** * Python strings *)
(* ===================================================================== *)

Module PyStr.

(** A Python [str] is a sequence of code points. *)
Definition str := list N.

(** An ASCII literal, as written in the source. *)
Fixpoint lit (s : string) : str :=
  match s with
  | EmptyString => []
  | String a r => N_of_ascii a :: lit r
  end.

(** The degree sign of the temperature messages, U+00B0, and the
    narrow no-break space, U+202F, that the messages put before it. *)
Definition degree : str := [176%N].
Definition nnbsp : str := [8239%N].

(** The line feed, and the double quote of the JSON texts. *)
Definition newline : str := [10%N].
Definition dquote : str := [34%N].

Definition eqb (a b : str) : bool :=
  if list_eq_dec N.eq_dec a b then true else false.

(** [str.isspace] on one code point: the characters Python treats as
    whitespace in [str.strip()] and [str.split()]. *)
Definition isspace (c : N) : bool :=
  ((9 <=? c) && (c <=? 13) || (28 <=? c) && (c <=? 32)
   || (c =? 133) || (c =? 160) || (c =? 5760)
   || (8192 <=? c) && (c <=? 8202)
   || (c =? 8232) || (c =? 8233) || (c =? 8239) || (c =? 8287)
   || (c =? 12288))%N.

(** [s.lstrip()], [s.rstrip()] and [s.strip()] without argument. *)
Fixpoint lstrip (s : str) : str :=
  match s with
  | c :: r => if isspace c then lstrip r else s
  | [] => []
  end.

Definition rstrip (s : str) : str := rev (lstrip (rev s)).

Definition strip (s : str) : str := rstrip (lstrip s).

(** [s.upper()] and [s.lower()].  The case mapping is written out
    for the ASCII letters and for the two letters outside ASCII whose
    upper case is an ASCII letter (U+0131 and U+017F, to I and S); every
    other code point is left as it is.  Python also maps the other cased
    letters outside ASCII, some of them to several characters (U+FB00 to
    FF, U+0130 to i and U+0307).  The sources only compare the mapped
    text with "C", "F" and "quit", and no text but the ASCII spellings
    of these has one of them as its Python upper or lower case, so the
    comparisons are decided here as Python decides them. *)
Definition upper_char (c : N) : N :=
  if ((97 <=? c) && (c <=? 122))%N then (c - 32)%N
  else if (c =? 305)%N then 73%N
  else if (c =? 383)%N then 83%N
  else c.

Definition lower_char (c : N) : N :=
  if ((65 <=? c) && (c <=? 90))%N then (c + 32)%N else c.

Definition upper (s : str) : str := map upper_char s.
Definition lower (s : str) : str := map lower_char s.

(** [s.endswith(suffix)]. *)
Fixpoint startswith (s p : str) : bool :=
  match p, s with
  | [], _ => true
  | _ :: _, [] => false
  | a :: p', b :: s' => (a =? b)%N && startswith s' p'
  end.

Definition endswith (s suffix : str) : bool :=
  startswith (rev s) (rev suffix).

(** [sep.join(parts)]. *)
Fixpoint join (sep : str) (parts : list str) : str :=
  match parts with
  | [] => []
  | [p] => p
  | p :: rest => p ++ sep ++ join sep rest
  end.

(** [s.split()] without argument: runs of whitespace separate the
    tokens, and leading and trailing whitespace gives no empty token.
    [tok] is the token being read, empty between tokens. *)
Fixpoint split_from (tok : str) (s : str) : list str :=
  match s with
  | [] => match tok with [] => [] | _ => [tok] end
  | c :: r =>
      if isspace c
      then match tok with
           | [] => split_from [] r
           | _ => tok :: split_from [] r
           end
      else split_from (tok ++ [c]) r
  end.

Definition split (s : str) : list str := split_from [] s.

(** The number of maximal runs of characters that are not whitespace:
    a run starts at such a character when it is the first of the text
    or comes after whitespace. *)
Fixpoint token_starts (after_space : bool) (s : str) : nat :=
  match s with
  | [] => 0
  | c :: r =>
      if isspace c then token_starts true r
      else (if after_space then 1 else 0) + token_starts false r
  end.

Definition token_count (s : str) : nat := token_starts true s.

(** A run: not empty and free of whitespace. *)
Definition is_run (t : str) : Prop :=
  t <> [] /\ Forall (fun c => isspace c = false) t.

(** The code points of the decimal digits. *)
Definition is_digit (c : N) : Prop := (48 <= c <= 57)%N.

(** [str(n)] for a non-negative integer. *)
Definition str_of_N (n : N) : str :=
  lit (NilZero.string_of_uint (N.to_uint n)).

Definition str_of_nat (n : nat) : str := str_of_N (N.of_nat n).

(** Truth value of an optional string: [None] and [""] are false. *)
Definition truthy (o : option str) : bool :=
  match o with
  | Some (_ :: _) => true
  | _ => false
  end.

End PyStr.

Import PyStr.

(* ===================================================================== *)
(** * Python floats *)
(* ===================================================================== *)

Module PyFloat.

(** A Python [float] is a binary64 number; the arithmetic is the
    round-to-nearest-even arithmetic of IEEE 754. *)
Definition float := spec_float.

Definition prec : Z := 53.
Definition emax : Z := 1024.

Definition sub : float -> float -> float := SFsub prec emax.
Definition add : float -> float -> float := SFadd prec emax.
Definition mul : float -> float -> float := SFmul prec emax.
Definition div : float -> float -> float := SFdiv prec emax.

(** An [int] operand of a mixed operation is converted first. *)
Definition of_Z (z : Z) : float := binary_normalize prec emax z 0 false.

(** The nearest integer to [m * 100 * 2^e], ties to the even one:
    the hundredths that [format(x, ".2f")] prints for [m * 2^e]. *)
Definition hundredths (m : positive) (e : Z) : N :=
  match e with
  | Zneg p =>
      let d := N.shiftl 1 (Npos p) in
      let a := (Npos m * 100)%N in
      let q := (a / d)%N in
      let r := (a mod d)%N in
      match (2 * r ?= d)%N with
      | Lt => q
      | Gt => (q + 1)%N
      | Eq => if N.even q then q else (q + 1)%N
      end
  | _ => N.shiftl (Npos m * 100) (Z.to_N e)
  end.

Definition two_digits (n : N) : str :=
  str_of_N (n / 10) ++ str_of_N (n mod 10).

Definition sign_str (s : bool) : str := if s then lit "-" else [].

(** [f"{x:.2f}"]. *)
Definition format_2f (x : float) : str :=
  match x with
  | S754_nan => lit "nan"
  | S754_infinity s => sign_str s ++ lit "inf"
  | S754_zero s => sign_str s ++ lit "0.00"
  | S754_finite s m e =>
      let n := hundredths m e in
      sign_str s ++ str_of_N (n / 100) ++ lit "." ++ two_digits (n mod 100)
  end.

End PyFloat.

(* ===================================================================== *)
(** * tools.py *)
(* ===================================================================== *)

Module Tools.

Import PyFloat.

(** [echo(message)] *)
Definition echo (message : str) : str := message.

(** [convert_temperature(value, unit)] *)
Definition convert_temperature (value : float) (unit : str) : str :=
  let unit := upper (strip unit) in
  if eqb unit (lit "C") then
    let f := add (div (mul value (of_Z 9)) (of_Z 5)) (of_Z 32) in
    format_2f value ++ nnbsp ++ degree ++ lit "C is "
      ++ format_2f f ++ nnbsp ++ degree ++ lit "F"
  else if eqb unit (lit "F") then
    let c := div (mul (sub value (of_Z 32)) (of_Z 5)) (of_Z 9) in
    format_2f value ++ nnbsp ++ degree ++ lit "F is "
      ++ format_2f c ++ nnbsp ++ degree ++ lit "C"
  else lit "Unit must be 'C' or 'F'.".

(** [word_count(text)] *)
Definition word_count (text : str) : str :=
  let count := length (split text) in
  lit "The text contains " ++ str_of_nat count ++ lit " word"
    ++ (if negb (Nat.eqb count 1) then lit "s" else []) ++ lit ".".

End Tools.

(* ===================================================================== *)
(** * client.py: data *)
(* ===================================================================== *)

Module Client.

(** A value decoded by [json.loads]. *)
#[warnings="-register-all"]
Inductive Json :=
| JNull
| JBool (b : bool)
| JInt (z : Z)
| JFloat (x : PyFloat.float)
| JStr (s : str)
| JList (l : list Json)
| JDict (l : list (str * Json)).

(** A tool as [list_tools()] describes it. *)
Record Tool := {
  tool_name : str;
  tool_description : option str;
  tool_inputSchema : Json
}.

(** The dictionary that [process_query] builds for each tool. *)
Record FunctionDecl := {
  fd_name : str;
  fd_description : option str;
  fd_parameters : Json
}.

Record ToolDecl := {
  td_type : str;
  td_function : FunctionDecl
}.

(** A tool call of a completion: [tool_call.id],
    [tool_call.function.name], [tool_call.function.arguments]. *)
Record Function := {
  fn_name : str;
  fn_arguments : str
}.

Record ToolCall := {
  tc_id : str;
  tc_function : Function
}.

(** [response.choices[i].message] *)
Record ChatCompletionMessage := {
  cm_content : option str;
  cm_tool_calls : option (list ToolCall)
}.

Record ChatCompletion := {
  choices : list ChatCompletionMessage
}.

(** The dictionaries of the [messages] list; a key that a dictionary
    does not have is [None]. *)
Inductive Role := user | assistant | tool.

Record Message := {
  role : Role;
  content : option str;
  tool_calls : option (list ToolCall);
  tool_call_id : option str
}.

(** The keyword arguments of [chat.completions.create]. *)
Record CompletionRequest := {
  model : option str;
  messages : list Message;
  tools : option (list ToolDecl);
  tool_choice : option str;
  max_tokens : N
}.

Record StdioServerParameters := {
  command : str;
  args : list str
}.

(** What [session.call_tool] returns. *)
Record CallToolResult := {
  isError : bool;
  result_text : list str
}.

Inductive Exception :=
| ValueError (msg : str)
| AttributeError (msg : str)
| IndexError (msg : str)
| JSONDecodeError (msg : str)
| EOFError (msg : str)
| LibraryError (msg : str)
| SystemExit (code : Z).

(** [except Exception] catches everything but [SystemExit]. *)
Definition is_Exception (e : Exception) : bool :=
  match e with
  | SystemExit _ => false
  | _ => true
  end.

Definition result (A : Type) : Type := (Exception + A)%type.

(** Every call that leaves the process, with what it came back with. *)
Inductive Event :=
| EvStdioClient (params : StdioServerParameters) (r : result unit)
| EvClientSession (r : result unit)
| EvInitialize (r : result unit)
| EvListTools (r : result (list Tool))
| EvCallTool (name : str) (arguments : Json) (r : result CallToolResult)
| EvCreate (request : CompletionRequest) (r : result ChatCompletion)
| EvInput (prompt : str) (r : result str)
| EvPrint (text : str)
| EvAclose
| EvAzureOpenAI (r : result unit).

Definition History := list Event.

(** The library functions, the environment of the process and the two
    peers of the client.  A peer answers from everything that has
    happened so far; so do the console, which may refuse a line
    ([print] raising), the constructor of the Azure client and the
    closing of the exit stack. *)
Record Env := {
  json_loads : str -> result Json;
  repr_json : Json -> str;
  repr_names : list str -> str;
  str_result : CallToolResult -> str;
  str_exception : Exception -> str;
  stdio_client_reply : History -> StdioServerParameters -> result unit;
  client_session_reply : History -> result unit;
  initialize_reply : History -> result unit;
  list_tools_reply : History -> result (list Tool);
  call_tool_reply : History -> str -> Json -> result CallToolResult;
  create_reply : History -> CompletionRequest -> result ChatCompletion;
  input_reply : History -> str -> result str;
  print_reply : History -> str -> result unit;
  aclose_reply : History -> result unit;
  azure_openai_reply : History -> result unit;
  getenv_deployment : option str
}.

(** The fields of [self] that the methods read and write. *)
Record MCPClient := {
  session : option StdioServerParameters;
  stdio : option StdioServerParameters;
  deployment : option str
}.

(** The fields that [__init__] sets, given the deployment name. *)
Definition init (deployment_name : option str) : MCPClient :=
  {| session := None; stdio := None; deployment := deployment_name |}.

(* =================================================================== *)
(** * A monad for the methods *)
(* =================================================================== *)

(** A method runs from a state of [self] and the history so far; it
    ends with a value or an exception, a state of [self], and the
    events it produced. *)
Definition M (A : Type) : Type :=
  MCPClient -> History -> result A * MCPClient * list Event.

Definition ret {A} (a : A) : M A := fun self _ => (inr a, self, []).

Definition raise {A} (e : Exception) : M A := fun self _ => (inl e, self, []).

Definition bind {A B} (m : M A) (f : A -> M B) : M B :=
  fun self h =>
    match m self h with
    | (inl e, self1, evs) => (inl e, self1, evs)
    | (inr a, self1, evs) =>
        match f a self1 (h ++ evs) with
        | (r, self2, evs') => (r, self2, evs ++ evs')
        end
    end.

(** [try: m except Exception as e: handler(e)] *)
Definition try_except {A} (m : M A) (handler : Exception -> M A) : M A :=
  fun self h =>
    match m self h with
    | (inl e, self1, evs) =>
        if is_Exception e then
          match handler e self1 (h ++ evs) with
          | (r, self2, evs') => (r, self2, evs ++ evs')
          end
        else (inl e, self1, evs)
    | done => done
    end.

(** [try: m finally: cleanup] *)
Definition try_finally {A} (m : M A) (cleanup : M unit) : M A :=
  fun self h =>
    match m self h with
    | (r, self1, evs) =>
        match cleanup self1 (h ++ evs) with
        | (inl e, self2, evs') => (inl e, self2, evs ++ evs')
        | (inr _, self2, evs') => (r, self2, evs ++ evs')
        end
    end.

Definition get_self : M MCPClient := fun self _ => (inr self, self, []).

Definition set_self (self' : MCPClient) : M unit :=
  fun _ _ => (inr tt, self', []).

(** A call to a peer: the reply is the peer's, the event records it. *)
Definition call {A} (reply : History -> result A)
    (event : result A -> Event) : M A :=
  fun self h => (reply h, self, [event (reply h)]).

(** A call whose event records what was asked only. *)
Definition attempt (reply : History -> result unit) (event : Event)
    : M unit :=
  fun self h => (reply h, self, [event]).

Definition lift {A} (r : result A) : M A := fun self _ => (r, self, []).

Declare Scope py_scope.
Delimit Scope py_scope with py.
Notation "x <- m ;; k" := (bind m (fun x => k))
  (at level 61, m at next level, right associativity) : py_scope.
Notation "m ;;; k" := (bind m (fun _ => k))
  (at level 61, right associativity) : py_scope.
Local Open Scope py_scope.

(* =================================================================== *)
(** * client.py: the methods of [MCPClient] *)
(* =================================================================== *)

(** [print(text)] *)
Definition print (env : Env) (text : str) : M unit :=
  attempt (fun h => print_reply env h text) (EvPrint text).

(** [self.session], to call a method of it: [None] has none. *)
Definition the_session (attribute : string) : M StdioServerParameters :=
  self <- get_self ;;
  match session self with
  | Some s => ret s
  | None =>
      raise (AttributeError
        (lit "'NoneType' object has no attribute '" ++ lit attribute
           ++ lit "'"))
  end.

(** [await self.session.list_tools()], then [.tools] *)
Definition list_tools (env : Env) : M (list Tool) :=
  the_session "list_tools" ;;;
  call (list_tools_reply env) EvListTools.

(** [await self.session.call_tool(name, arguments)] *)
Definition call_tool (env : Env) (name : str) (arguments : Json)
    : M CallToolResult :=
  the_session "call_tool" ;;;
  call (fun h => call_tool_reply env h name arguments)
       (EvCallTool name arguments).

(** [self.azure_client.chat.completions.create(...)] *)
Definition create (env : Env) (request : CompletionRequest)
    : M ChatCompletion :=
  call (fun h => create_reply env h request) (EvCreate request).

(** [response.choices[0].message] *)
Definition first_message (response : ChatCompletion)
    : M ChatCompletionMessage :=
  match choices response with
  | m :: _ => ret m
  | [] => raise (IndexError (lit "list index out of range"))
  end.

(** [connect_to_server(self, server_script_path)] *)
Definition connect_to_server (env : Env) (server_script_path : str)
    : M unit :=
  let is_python := endswith server_script_path (lit ".py") in
  let is_js := endswith server_script_path (lit ".js") in
  if negb (is_python || is_js) then
    raise (ValueError (lit "Server script must be a .py or .js file"))
  else
    let command := if is_python then lit "python" else lit "node" in
    let server_params :=
      {| command := command; args := [server_script_path] |} in
    call (fun h => stdio_client_reply env h server_params)
         (EvStdioClient server_params) ;;;
    self <- get_self ;;
    set_self {| session := session self; stdio := Some server_params;
                deployment := deployment self |} ;;;
    call (client_session_reply env) EvClientSession ;;;
    self <- get_self ;;
    set_self {| session := Some server_params; stdio := stdio self;
                deployment := deployment self |} ;;;
    call (initialize_reply env) EvInitialize ;;;
    tools <- list_tools env ;;
    print env (newline ++ [9989%N]
             ++ lit " Connected to server with tools: "
             ++ repr_names env (map tool_name tools)).

(** The dictionaries that [process_query] puts into [messages]. *)
Definition user_message (query : str) : Message :=
  {| role := user; content := Some query;
     tool_calls := None; tool_call_id := None |}.

Definition assistant_message (tool_call : ToolCall) : Message :=
  {| role := assistant; content := None;
     tool_calls := Some [tool_call]; tool_call_id := None |}.

Definition tool_message (tool_call : ToolCall) (text : str) : Message :=
  {| role := tool; content := Some text;
     tool_calls := None; tool_call_id := Some (tc_id tool_call) |}.

Definition tool_declaration (t : Tool) : ToolDecl :=
  {| td_type := lit "function";
     td_function := {| fd_name := tool_name t;
                       fd_description := tool_description t;
                       fd_parameters := tool_inputSchema t |} |}.

(** [if m.content: final_text.append(m.content)] *)
Definition append_content (final_text : list str)
    (m : ChatCompletionMessage) : list str :=
  if truthy (cm_content m) then
    match cm_content m with
    | Some c => final_text ++ [c]
    | None => final_text
    end
  else final_text.

(** The first request of a query and the request after a tool call. *)
Definition first_request (self : MCPClient) (messages : list Message)
    (available_tools : list ToolDecl) : CompletionRequest :=
  {| model := deployment self; messages := messages;
     tools := Some available_tools; tool_choice := Some (lit "auto");
     max_tokens := 1000 |}.

Definition follow_up_request (self : MCPClient) (messages : list Message)
    : CompletionRequest :=
  {| model := deployment self; messages := messages;
     tools := None; tool_choice := None; max_tokens := 1000 |}.

(** The body of [for tool_call in message.tool_calls], run over the
    calls that are left; [messages] and [final_text] are the two
    lists that the body extends. *)
Fixpoint tool_call_loop (env : Env) (calls : list ToolCall)
    (messages : list Message) (final_text : list str)
    : M (list Message * list str) :=
  match calls with
  | [] => ret (messages, final_text)
  | tool_call :: rest =>
      let tool_name := fn_name (tc_function tool_call) in
      tool_args <- lift (json_loads env (fn_arguments (tc_function tool_call))) ;;
      tool_response <- call_tool env tool_name tool_args ;;
      let final_text :=
        final_text
          ++ [lit "[Tool " ++ tool_name ++ lit " called with args "
                ++ repr_json env tool_args ++ lit "]"]
          ++ [str_result env tool_response] in
      let messages :=
        messages ++ [assistant_message tool_call]
          ++ [tool_message tool_call (str_result env tool_response)] in
      self <- get_self ;;
      response <- create env (follow_up_request self messages) ;;
      follow_up <- first_message response ;;
      let final_text := append_content final_text follow_up in
      tool_call_loop env rest messages final_text
  end.

(** [if message.tool_calls:] an absent or empty list is false. *)
Definition pending_calls (m : ChatCompletionMessage) : list ToolCall :=
  match cm_tool_calls m with
  | Some calls => calls
  | None => []
  end.

(** [process_query(self, query)] up to the [return]: the two lists. *)
Definition process_query_lists (env : Env) (query : str)
    : M (list Message * list str) :=
  let messages := [user_message query] in
  let final_text := [] in
  response <- list_tools env ;;
  let available_tools := map tool_declaration response in
  self <- get_self ;;
  response <- create env (first_request self messages available_tools) ;;
  message <- first_message response ;;
  let final_text := append_content final_text message in
  tool_call_loop env (pending_calls message) messages final_text.

(** [process_query(self, query)] *)
Definition process_query (env : Env) (query : str) : M str :=
  lists <- process_query_lists env query ;;
  ret (join (newline) (snd lists)).

(** One turn of [while True] in [chat_loop]: [true] when it breaks. *)
Definition chat_turn (env : Env) : M bool :=
  try_except
    (line <- call (fun h => input_reply env h (newline ++ lit "Query: "))
                  (EvInput (newline ++ lit "Query: ")) ;;
     let query := strip line in
     if eqb (lower query) (lit "quit") then ret true
     else
       response <- process_query env query ;;
       print env (newline ++ response) ;;;
       ret false)
    (fun e =>
       print env (newline ++ [10060%N] ++ lit " Error: "
                ++ str_exception env e) ;;;
       ret false).

(** The loop of [chat_loop], for at most [turns] turns: [true] when
    the loop has ended by then. *)
Fixpoint chat_turns (env : Env) (turns : nat) : M bool :=
  match turns with
  | O => ret false
  | S n =>
      stop <- chat_turn env ;;
      if stop then ret true else chat_turns env n
  end.

(** [chat_loop(self)] *)
Definition chat_loop (env : Env) (turns : nat) : M bool :=
  print env (newline ++ [129302%N] ++ lit " MCP Client Started!") ;;;
  print env (lit "Type your query or 'quit' to exit.") ;;;
  chat_turns env turns.

(** [cleanup(self)] *)
Definition cleanup (env : Env) : M unit :=
  attempt (aclose_reply env) EvAclose.

(** [MCPClient()]: [__init__] sets the session to [None], builds the
    Azure client, which raises when it lacks a key, an endpoint or a
    version, and reads the deployment name from the environment. *)
Definition new_client (env : Env) : M unit :=
  set_self (init None) ;;;
  call (azure_openai_reply env) EvAzureOpenAI ;;;
  set_self (init (getenv_deployment env)).

(** [main()], with [sys.argv] as argument. *)
Definition main (env : Env) (argv : list str) (turns : nat) : M bool :=
  match argv with
  | _ :: path :: _ =>
      new_client env ;;;
      try_finally
        (connect_to_server env path ;;; chat_loop env turns)
        (cleanup env)
  | _ =>
      print env (lit "Usage: python client.py <path_to_server_script>") ;;;
      raise (SystemExit 1)
  end.

(** What a run of a method gives. *)
Definition outcome {A} (run : result A * MCPClient * list Event) : result A :=
  fst (fst run).
Definition self_after {A} (run : result A * MCPClient * list Event)
    : MCPClient := snd (fst run).
Definition events {A} (run : result A * MCPClient * list Event)
    : list Event := snd run.

(* =================================================================== *)
(** * Reading a trace *)
(* =================================================================== *)

(** The completion requests of a trace, in the order they were sent. *)
Fixpoint requests (evs : list Event) : list CompletionRequest :=
  match evs with
  | [] => []
  | EvCreate request _ :: rest => request :: requests rest
  | _ :: rest => requests rest
  end.

(** The tool invocations of a trace, and the results that came back. *)
Fixpoint invoked (evs : list Event) : list (str * Json) :=
  match evs with
  | [] => []
  | EvCallTool name arguments _ :: rest => (name, arguments) :: invoked rest
  | _ :: rest => invoked rest
  end.

Fixpoint returned (evs : list Event) : list CallToolResult :=
  match evs with
  | [] => []
  | EvCallTool _ _ (inr r) :: rest => r :: returned rest
  | _ :: rest => returned rest
  end.

(** The tool lists that the tool process sent. *)
Fixpoint discovered (evs : list Event) : list (list Tool) :=
  match evs with
  | [] => []
  | EvListTools (inr ts) :: rest => ts :: discovered rest
  | _ :: rest => discovered rest
  end.

(** The number of [list_tools] calls of a trace. *)
Fixpoint discoveries (evs : list Event) : nat :=
  match evs with
  | [] => 0
  | EvListTools _ :: rest => S (discoveries rest)
  | _ :: rest => discoveries rest
  end.

(** The message of the first completion that came back, if any. *)
Fixpoint first_completion_message (evs : list Event)
    : option ChatCompletionMessage :=
  match evs with
  | [] => None
  | EvCreate _ (inr response) :: _ => hd_error (choices response)
  | EvCreate _ (inl _) :: _ => None
  | _ :: rest => first_completion_message rest
  end.

(** The two messages that one tool call adds to [messages]. *)
Definition pair_messages (env : Env) (p : ToolCall * CallToolResult)
    : list Message :=
  [assistant_message (fst p); tool_message (fst p) (str_result env (snd p))].

Definition pairs (env : Env) (l : list (ToolCall * CallToolResult))
    : list Message :=
  flat_map (pair_messages env) l.

(** One turn of the [for] loop that got as far as its completion
    request: the call, its decoded arguments, the result of the tool
    and what the backend answered. *)
Record Round := {
  round_call : ToolCall;
  round_args : Json;
  round_result : CallToolResult;
  round_reply : result ChatCompletion
}.

(** The trace of such turns: each one is an invocation followed by a
    request over the messages extended by the pair of that call. *)
Fixpoint rounds_trace (env : Env) (self : MCPClient)
    (messages : list Message) (rounds : list Round) : list Event :=
  match rounds with
  | [] => []
  | r :: rest =>
      let messages' :=
        messages ++ pair_messages env (round_call r, round_result r) in
      EvCallTool (fn_name (tc_function (round_call r))) (round_args r)
                 (inr (round_result r))
        :: EvCreate (follow_up_request self messages') (round_reply r)
        :: rounds_trace env self messages' rest
  end.

Definition round_pair (r : Round) : ToolCall * CallToolResult :=
  (round_call r, round_result r).

(** The arguments of a round are those that [json.loads] decoded. *)
Definition decoded (env : Env) (r : Round) : Prop :=
  json_loads env (fn_arguments (tc_function (round_call r)))
  = inr (round_args r).

(** The trace [tail] of a turn that ended in [call_tool] raising [e],
    for the [n]-th call of [calls]. *)
Definition failed_call (env : Env) (calls : list ToolCall) (n : nat)
    (tail : list Event) (e : Exception) : Prop :=
  exists tc a,
    nth_error calls n = Some tc
    /\ json_loads env (fn_arguments (tc_function tc)) = inr a
    /\ tail = [EvCallTool (fn_name (tc_function tc)) a (inl e)].

(** A request that offers no tools. *)
Definition no_tools (request : CompletionRequest) : Prop :=
  tools request = None /\ tool_choice request = None.

(** The messages of a list by role, and the ids that the tool-role
    messages carry. *)
Definition has_role (r : Role) (m : Message) : bool :=
  match r, role m with
  | user, user | assistant, assistant | tool, tool => true
  | _, _ => false
  end.

Definition tool_call_ids (msgs : list Message) : list (option str) :=
  map tool_call_id (filter (has_role tool) msgs).

(** A request of a query is its first request, over the user message
    alone, or a request without tools over the user message and pairs
    for results taken from [results]. *)
Definition request_of_query (env : Env) (query : str) (self : MCPClient)
    (results : list CallToolResult) (req : CompletionRequest) : Prop :=
  (exists decls, req = first_request self [user_message query] decls)
  \/ (exists ps,
        req = follow_up_request self (user_message query :: pairs env ps)
        /\ Forall (fun p => In (snd p) results) ps).

(** The lines that one round adds to [final_text]: the line that names
    the tool and its arguments, the result as a string, and the content
    of the completion that followed, if it has one. *)
Definition round_lines (env : Env) (r : Round) : list str :=
  [lit "[Tool " ++ fn_name (tc_function (round_call r))
     ++ lit " called with args " ++ repr_json env (round_args r) ++ lit "]";
   str_result env (round_result r)]
    ++ match round_reply r with
       | inr response =>
           match choices response with
           | m :: _ => append_content [] m
           | [] => []
           end
       | inl _ => []
       end.

(** The line that [chat_loop] prints for an exception. *)
Definition error_line (env : Env) (e : Exception) : str :=
  newline ++ [10060%N] ++ lit " Error: " ++ str_exception env e.

(** What the handler of [chat_loop] ends with for the exception [e]:
    it prints the error line, which may raise, and goes on. *)
Definition report (env : Env) (e : Exception) (h : History) : result bool :=
  match print_reply env h (error_line env e) with
  | inl e' => inl e'
  | inr _ => inr false
  end.

(** The prompt of [chat_loop]. *)
Definition prompt : str := newline ++ lit "Query: ".

(** The number of times a trace closes the exit stack. *)
Fixpoint closes (evs : list Event) : nat :=
  match evs with
  | [] => 0
  | EvAclose :: rest => S (closes rest)
  | _ :: rest => closes rest
  end.

(** The kind of an event, to read the order of a trace. *)
Definition event_kind (e : Event) : string :=
  match e with
  | EvStdioClient _ _ => "stdio_client"
  | EvClientSession _ => "ClientSession"
  | EvInitialize _ => "initialize"
  | EvListTools _ => "list_tools"
  | EvCallTool _ _ _ => "call_tool"
  | EvCreate _ _ => "create"
  | EvInput _ _ => "input"
  | EvPrint _ => "print"
  | EvAclose => "aclose"
  | EvAzureOpenAI _ => "AzureOpenAI"
  end.

End Client.

(* ===================================================================== *)
(** * A tool process and a backend to run the client against *)
(* ===================================================================== *)

Module Demo.

Import Client.

Definition echo_tool : Tool :=
  {| tool_name := lit "echo";
     tool_description := Some (lit "Return the exact message you send in.");
     tool_inputSchema := JDict [(lit "message", JStr (lit "string"))] |}.

Definition word_count_tool : Tool :=
  {| tool_name := lit "word_count";
     tool_description :=
       Some (lit "Return how many words are in the provided text.");
     tool_inputSchema := JDict [(lit "text", JStr (lit "string"))] |}.

(** The argument texts of the runs below, and one that is cut short. *)
Definition one_string (key value : str) : str :=
  lit "{" ++ dquote ++ key ++ dquote ++ lit ": "
    ++ dquote ++ value ++ dquote ++ lit "}".

Definition hello_arguments : str := one_string (lit "message") (lit "hello").
Definition text_arguments : str := one_string (lit "text") (lit "a b c").
Definition cut_arguments : str := lit "{".

(** [json.loads] on these texts. *)
Definition loads (s : str) : result Json :=
  if eqb s hello_arguments then
    inr (JDict [(lit "message", JStr (lit "hello"))])
  else if eqb s text_arguments then
    inr (JDict [(lit "text", JStr (lit "a b c"))])
  else
    inl (JSONDecodeError
           (lit "Expecting property name enclosed in double quotes")).

Definition repr_value (v : Json) : str :=
  match v with
  | JStr s => lit "'" ++ s ++ lit "'"
  | _ => lit "..."
  end.

Definition repr (v : Json) : str :=
  match v with
  | JDict l =>
      lit "{"
        ++ join (lit ", ")
             (map (fun kv => lit "'" ++ fst kv ++ lit "': "
                               ++ repr_value (snd kv)) l)
        ++ lit "}"
  | _ => repr_value v
  end.

Definition names (l : list str) : str :=
  lit "[" ++ join (lit ", ") (map (fun n => lit "'" ++ n ++ lit "'") l)
    ++ lit "]".

Definition show_result (r : CallToolResult) : str :=
  lit "content=[" ++ join (lit ", ") (result_text r) ++ lit "] isError="
    ++ (if isError r then lit "True" else lit "False").

Definition show_exception (e : Exception) : str :=
  match e with
  | ValueError m | AttributeError m | IndexError m | JSONDecodeError m
  | EOFError m | LibraryError m => m
  | SystemExit c => lit "exit"
  end.

(** The tool process runs the tools of [tools.py]; a name it does not
    know comes back as a result flagged as an error. *)
Definition run_tool (name : str) (arguments : Json) : result CallToolResult :=
  match arguments with
  | JDict [(_, JStr s)] =>
      if eqb name (lit "echo") then
        inr {| isError := false; result_text := [Tools.echo s] |}
      else if eqb name (lit "word_count") then
        inr {| isError := false; result_text := [Tools.word_count s] |}
      else
        inr {| isError := true;
               result_text := [lit "Unknown tool: " ++ name] |}
  | _ =>
      inr {| isError := true;
             result_text := [lit "Error executing tool " ++ name] |}
  end.

Definition call (id name arguments : str) : ToolCall :=
  {| tc_id := id;
     tc_function := {| fn_name := name; fn_arguments := arguments |} |}.

Definition say (text : str) : ChatCompletion :=
  {| choices := [{| cm_content := Some text; cm_tool_calls := None |}] |}.

Definition ask (calls : list ToolCall) : ChatCompletion :=
  {| choices := [{| cm_content := None; cm_tool_calls := Some calls |}] |}.

(** The backend: when tools are offered it answers the query with the
    tool calls below, and after a tool call it answers with a text. *)
Definition backend (request : CompletionRequest) : result ChatCompletion :=
  match tools request, messages request with
  | Some _, [m] =>
      match content m with
      | Some q =>
          if eqb q (lit "echo hello") then
            inr (ask [call (lit "call_1") (lit "echo") hello_arguments])
          else if eqb q (lit "echo hello and count a b c") then
            inr (ask [call (lit "call_1") (lit "echo") hello_arguments;
                      call (lit "call_2") (lit "word_count") text_arguments])
          else if eqb q (lit "shout hello") then
            inr (ask [call (lit "call_1") (lit "shout") hello_arguments;
                      call (lit "call_2") (lit "echo") hello_arguments])
          else if eqb q (lit "echo and echo hello") then
            inr (ask [call (lit "call_1") (lit "echo") cut_arguments;
                      call (lit "call_2") (lit "echo") hello_arguments])
          else inr (say (lit "Hello!"))
      | None => inr (say (lit "Hello!"))
      end
  | _, _ => inr (say (lit "Done."))
  end.

(** The lines typed at the prompt: the [n]-th [input()] reads the
    [n]-th line, and the end of the input after the last one. *)
Fixpoint inputs_read (h : History) : nat :=
  match h with
  | [] => 0
  | EvInput _ _ :: rest => S (inputs_read rest)
  | _ :: rest => inputs_read rest
  end.

Definition read_line (lines : list str) (h : History) (prompt : str)
    : result str :=
  match nth_error lines (inputs_read h) with
  | Some l => inr l
  | None => inl (EOFError (lit "EOF when reading a line"))
  end.

(** A tool process with a fixed list of tools. *)
Definition env (lines : list str) : Env :=
  {| json_loads := loads;
     repr_json := repr;
     repr_names := names;
     str_result := show_result;
     str_exception := show_exception;
     stdio_client_reply := fun _ _ => inr tt;
     client_session_reply := fun _ => inr tt;
     initialize_reply := fun _ => inr tt;
     list_tools_reply := fun _ => inr [echo_tool; word_count_tool];
     call_tool_reply := fun _ => run_tool;
     create_reply := fun _ => backend;
     input_reply := read_line lines;
     print_reply := fun _ _ => inr tt;
     aclose_reply := fun _ => inr tt;
     azure_openai_reply := fun _ => inr tt;
     getenv_deployment := Some (lit "gpt-4o") |}.

(** A tool process that registers [word_count] once it has been asked
    for its tools: the first list has one tool, the later ones two. *)
Definition growing_env (lines : list str) : Env :=
  {| json_loads := loads;
     repr_json := repr;
     repr_names := names;
     str_result := show_result;
     str_exception := show_exception;
     stdio_client_reply := fun _ _ => inr tt;
     client_session_reply := fun _ => inr tt;
     initialize_reply := fun _ => inr tt;
     list_tools_reply := fun h =>
       match discoveries h with
       | O => inr [echo_tool]
       | _ => inr [echo_tool; word_count_tool]
       end;
     call_tool_reply := fun _ => run_tool;
     create_reply := fun _ => backend;
     input_reply := read_line lines;
     print_reply := fun _ _ => inr tt;
     aclose_reply := fun _ => inr tt;
     azure_openai_reply := fun _ => inr tt;
     getenv_deployment := Some (lit "gpt-4o") |}.

(** A tool process that dies before the handshake: [initialize]
    raises. *)
Definition dead_env : Env :=
  {| json_loads := loads;
     repr_json := repr;
     repr_names := names;
     str_result := show_result;
     str_exception := show_exception;
     stdio_client_reply := fun _ _ => inr tt;
     client_session_reply := fun _ => inr tt;
     initialize_reply := fun _ => inl (LibraryError (lit "Connection closed"));
     list_tools_reply := fun _ => inr [echo_tool; word_count_tool];
     call_tool_reply := fun _ => run_tool;
     create_reply := fun _ => backend;
     input_reply := read_line [];
     print_reply := fun _ _ => inr tt;
     aclose_reply := fun _ => inr tt;
     azure_openai_reply := fun _ => inr tt;
     getenv_deployment := Some (lit "gpt-4o") |}.

(** An input that ends the process while a line is read: [input()]
    raises [SystemExit], as under a handler that calls [sys.exit]. *)
Definition exiting_env : Env :=
  {| json_loads := loads;
     repr_json := repr;
     repr_names := names;
     str_result := show_result;
     str_exception := show_exception;
     stdio_client_reply := fun _ _ => inr tt;
     client_session_reply := fun _ => inr tt;
     initialize_reply := fun _ => inr tt;
     list_tools_reply := fun _ => inr [echo_tool; word_count_tool];
     call_tool_reply := fun _ => run_tool;
     create_reply := fun _ => backend;
     input_reply := fun _ _ => inl (SystemExit 0);
     print_reply := fun _ _ => inr tt;
     aclose_reply := fun _ => inr tt;
     azure_openai_reply := fun _ => inr tt;
     getenv_deployment := Some (lit "gpt-4o") |}.

(** A console that is closed: every [print] raises, and the input is
    at its end. *)
Definition closed_env : Env :=
  {| json_loads := loads;
     repr_json := repr;
     repr_names := names;
     str_result := show_result;
     str_exception := show_exception;
     stdio_client_reply := fun _ _ => inr tt;
     client_session_reply := fun _ => inr tt;
     initialize_reply := fun _ => inr tt;
     list_tools_reply := fun _ => inr [echo_tool; word_count_tool];
     call_tool_reply := fun _ => run_tool;
     create_reply := fun _ => backend;
     input_reply := read_line [];
     print_reply := fun _ _ =>
       inl (ValueError (lit "I/O operation on closed file."));
     aclose_reply := fun _ => inr tt;
     azure_openai_reply := fun _ => inr tt;
     getenv_deployment := Some (lit "gpt-4o") |}.

(** A process without the endpoint of the backend in its environment:
    the constructor of the Azure client raises. *)
Definition keyless_env : Env :=
  {| json_loads := loads;
     repr_json := repr;
     repr_names := names;
     str_result := show_result;
     str_exception := show_exception;
     stdio_client_reply := fun _ _ => inr tt;
     client_session_reply := fun _ => inr tt;
     initialize_reply := fun _ => inr tt;
     list_tools_reply := fun _ => inr [echo_tool; word_count_tool];
     call_tool_reply := fun _ => run_tool;
     create_reply := fun _ => backend;
     input_reply := read_line [];
     print_reply := fun _ _ => inr tt;
     aclose_reply := fun _ => inr tt;
     azure_openai_reply := fun _ =>
       inl (ValueError (lit "Must provide the azure_endpoint argument"));
     getenv_deployment := None |}.

(** A client that is connected to [demo_tools.py]. *)
Definition server_params : StdioServerParameters :=
  {| command := lit "python"; args := [lit "demo_tools.py"] |}.

Definition connected : MCPClient :=
  {| session := Some server_params; stdio := Some server_params;
     deployment := Some (lit "gpt-4o") |}.

(** The runs that the facts below look at. *)
Definition two_calls : ChatCompletionMessage :=
  {| cm_content := None;
     cm_tool_calls :=
       Some [call (lit "call_1") (lit "echo") hello_arguments;
             call (lit "call_2") (lit "word_count") text_arguments] |}.


Definition hello : ChatCompletionMessage :=
  {| cm_content := Some (lit "Hello!"); cm_tool_calls := None |}.

Definition run_two :=
  process_query (env []) (lit "echo hello and count a b c") connected [].


Definition run_hi := process_query (env []) (lit "hi") connected [].

Definition run_shout :=
  process_query (env []) (lit "shout hello") connected [].

(** The first request of [run_hi], and the two lists that
    [process_query] has built when [run_two] returns. *)
Definition request_hi : CompletionRequest :=
  first_request connected [user_message (lit "hi")]
    (map tool_declaration [echo_tool; word_count_tool]).

Definition lists_two : list Message * list str :=
  match
    outcome (process_query_lists (env []) (lit "echo hello and count a b c")
               connected [])
  with
  | inr lists => lists
  | inl _ => ([], [])
  end.

(** The text that [run_two] returns. *)
Definition text_two : str :=
  match outcome run_two with
  | inr text => text
  | inl _ => []
  end.

(** A query on a client that never connected. *)
Definition run_unconnected := process_query (env []) (lit "hi") (init None) [].

(** A line that asks to quit, between whitespace. *)
Definition quit_line : str := lit "  " ++ lit "QuIt" ++ lit " ".





Definition run_main :=
  main (growing_env [lit "hi"; lit "quit"])
    [lit "client.py"; lit "demo_tools.py"] 5 (init (Some (lit "gpt-4o"))) [].

End Demo.

(* ===================================================================== *)
(** * The tools *)
(* ===================================================================== *)

Section ToolsFacts.

Import PyFloat Tools.

Lemma eqb_eq (a b : str) : eqb a b = true <-> a = b.
Proof.
  unfold eqb. destruct (list_eq_dec N.eq_dec a b); split; congruence.
Qed.

Lemma eqb_refl (a : str) : eqb a a = true.
Proof. now apply eqb_eq. Qed.

Lemma eqb_neq (a b : str) : eqb a b = false <-> a <> b.
Proof.
  unfold eqb. destruct (list_eq_dec N.eq_dec a b); split; congruence.
Qed.

(** ** [split] and the runs of a text *)

Lemma split_from_length (s tok : str) :
  length (split_from tok s) =
  match tok with
  | [] => token_starts true s
  | _ => S (token_starts false s)
  end.
Proof.
  revert tok. induction s as [|c r IH]; intros tok; simpl.
  - now destruct tok.
  - destruct (isspace c).
    + destruct tok; simpl; rewrite IH; reflexivity.
    + rewrite IH. destruct tok; simpl; reflexivity.
Qed.

Lemma split_length (s : str) : length (split s) = token_count s.
Proof. unfold split. now rewrite split_from_length. Qed.

Lemma token_starts_blank (s : str) (b : bool) :
  Forall (fun c => isspace c = true) s -> token_starts b s = 0.
Proof.
  intros H. revert b. induction H as [|c r Hc _ IH]; intros b; simpl.
  - reflexivity.
  - rewrite Hc. apply IH.
Qed.

(** Every token of [split] is a run. *)
Lemma split_from_runs (s tok : str) :
  Forall (fun c => isspace c = false) tok ->
  Forall is_run (split_from tok s).
Proof.
  revert tok. induction s as [|c r IH]; intros tok Htok; simpl.
  - destruct tok; constructor; [split; [discriminate | assumption] | constructor].
  - destruct (isspace c) eqn:E.
    + destruct tok.
      * apply IH. constructor.
      * constructor; [split; [discriminate | assumption] | apply IH; constructor].
    + apply IH. apply Forall_app. split; [assumption | now repeat constructor].
Qed.

Lemma split_runs (s : str) : Forall is_run (split s).
Proof. apply split_from_runs. constructor. Qed.

(** ** Two decimal places *)

Lemma hundredths_exact (m : positive) (e : Z) :
  (0 <= e)%Z ->
  Z.of_N (hundredths m e) = (Zpos m * 100 * 2 ^ e)%Z.
Proof.
  intros He. unfold hundredths.
  destruct e as [|p|p]; try lia.
  - simpl Z.to_N. rewrite N.shiftl_0_r. lia.
  - simpl Z.to_N. rewrite N.shiftl_mul_pow2, N2Z.inj_mul, N2Z.inj_pow.
    reflexivity.
Qed.

Lemma hundredths_nearest (m p : positive) :
  (Z.abs (2 * (Z.of_N (hundredths m (Zneg p)) * 2 ^ Zpos p - Zpos m * 100))
   <= 2 ^ Zpos p)%Z.
Proof.
  unfold hundredths.
  rewrite N.shiftl_1_l.
  set (d := (2 ^ N.pos p)%N).
  set (a := (N.pos m * 100)%N).
  assert (Hd : (0 < d)%N)
    by (unfold d; apply N.neq_0_lt_0, N.pow_nonzero; discriminate).
  assert (Ha : a = (d * (a / d) + a mod d)%N) by (apply N.div_mod; lia).
  assert (Hr : (a mod d < d)%N) by (apply N.mod_lt; lia).
  assert (Hz : (2 ^ Z.pos p)%Z = Z.of_N d).
  { unfold d. rewrite N2Z.inj_pow. reflexivity. }
  assert (Hm : (Z.pos m * 100)%Z = Z.of_N a) by (unfold a; lia).
  rewrite Hz, Hm. clearbody d a.
  set (q := (a / d)%N) in *. set (r := (a mod d)%N) in *. clearbody q r.
  destruct (N.compare_spec (2 * r) d) as [E|E|E].
  - destruct (N.even q); nia.
  - nia.
  - nia.
Qed.

(** C7, as the code has it.  [convert_temperature(value=100,
    unit="F")] returns exactly "100.00", a narrow no-break space
    (U+202F), the degree sign, "F is 37.78", a narrow no-break space,
    the degree sign and "C"; for every value and every unit that is F
    once stripped and upper-cased, the message renders the value and
    the float [(value - 32) * 5 / 9], each with two decimal places (the
    digits of the integer nearest to a hundred times the float) and
    each followed by a narrow no-break space and the degree sign. *)
Theorem convert_temperature_fahrenheit :
  convert_temperature (of_Z 100) (lit "F")
  = lit "100.00" ++ nnbsp ++ degree ++ lit "F is 37.78" ++ nnbsp ++ degree
      ++ lit "C"
  /\ (forall (value : float) (unit : str),
        upper (strip unit) = lit "F" ->
        convert_temperature value unit
        = format_2f value ++ nnbsp ++ degree ++ lit "F is "
            ++ format_2f (div (mul (sub value (of_Z 32)) (of_Z 5)) (of_Z 9))
            ++ nnbsp ++ degree ++ lit "C")
  /\ (forall (s : bool) (m : positive) (e : Z),
        exists n : N,
          format_2f (S754_finite s m e)
          = sign_str s ++ str_of_N (n / 100) ++ lit "."
              ++ str_of_N (n mod 100 / 10) ++ str_of_N (n mod 100 mod 10)
          /\ ((0 <= e)%Z -> Z.of_N n = (Zpos m * 100 * 2 ^ e)%Z)
          /\ ((e < 0)%Z ->
              (Z.abs (2 * (Z.of_N n * 2 ^ (- e) - Zpos m * 100))
               <= 2 ^ (- e))%Z)).
Proof.
  split; [vm_compute; reflexivity | split].
  - intros value unit Hunit. unfold convert_temperature.
    rewrite Hunit. reflexivity.
  - intros s m e. exists (hundredths m e). split; [reflexivity | split].
    + apply hundredths_exact.
    + intros He. destruct e as [|p|p]; try lia.
      apply hundredths_nearest.
Qed.

Lemma convert_temperature_fahrenheit_witness :
  convert_temperature (of_Z 100) (lit " f ")
  = lit "100.00" ++ nnbsp ++ degree ++ lit "F is 37.78" ++ nnbsp ++ degree
      ++ lit "C".
Proof.
  rewrite (proj1 (proj2 convert_temperature_fahrenheit)
             (of_Z 100) (lit " f ") eq_refl).
  vm_compute. reflexivity.
Defined.

(** With ordinary spaces before the degree signs the text is not what
    [convert_temperature] returns: the two differ at the seventh
    character, U+202F in the one and U+0020 in the other. *)
Lemma convert_temperature_not_ascii_space :
  convert_temperature (of_Z 100) (lit "F")
  <> lit "100.00 " ++ degree ++ lit "F is 37.78 " ++ degree ++ lit "C"
  /\ nth_error (convert_temperature (of_Z 100) (lit "F")) 6 = Some 8239%N
  /\ nth_error
       (lit "100.00 " ++ degree ++ lit "F is 37.78 " ++ degree ++ lit "C") 6
     = Some 32%N.
Proof.
  split; [|split; vm_compute; reflexivity].
  intros H. apply (f_equal (fun s => nth_error s 6)) in H.
  vm_compute in H. discriminate H.
Qed.

(** C8. For every string [message], [echo] returns that string
    unchanged; [echo(message="hello")] returns ["hello"]. *)
Theorem echo_identity :
  (forall message : str, echo message = message)
  /\ echo (lit "hello") = lit "hello".
Proof. split; [intros message|]; reflexivity. Qed.

(** C9. For every string [text], [word_count] returns "The text
    contains N words." where N is the number of maximal runs of
    characters that are not whitespace, with "word" instead of
    "words" exactly when N is 1; an empty or all-whitespace text
    gives "The text contains 0 words.". *)
Theorem word_count_sentence :
  forall text : str,
    word_count text =
      lit "The text contains " ++ str_of_nat (token_count text)
        ++ (if Nat.eqb (token_count text) 1 then lit " word."
            else lit " words.")
    /\ (Forall (fun c => isspace c = true) text ->
        word_count text = lit "The text contains 0 words.").
Proof.
  intros text.
  assert (E : word_count text =
              lit "The text contains " ++ str_of_nat (token_count text)
                ++ (if Nat.eqb (token_count text) 1 then lit " word."
                    else lit " words.")).
  { unfold word_count. rewrite split_length.
    destruct (Nat.eqb (token_count text) 1); reflexivity. }
  split; [exact E|].
  intros Hblank. rewrite E. unfold token_count.
  rewrite (token_starts_blank true Hblank). reflexivity.
Qed.

Lemma word_count_sentence_witness :
  word_count (lit "one") = lit "The text contains 1 word."
  /\ word_count (lit " a  b c ") = lit "The text contains 3 words."
  /\ word_count (lit "   ") = lit "The text contains 0 words.".
Proof.
  split; [|split].
  - exact (proj1 (word_count_sentence (lit "one"))).
  - exact (proj1 (word_count_sentence (lit " a  b c "))).
  - apply (proj2 (word_count_sentence (lit "   "))).
    repeat constructor.
Defined.

End ToolsFacts.

(* ===================================================================== *)
(** * Running the methods *)
(* ===================================================================== *)

Import Client.
Local Open Scope py_scope.

Section MonadRuns.
Context {A B : Type}.

Lemma run_bind_ret (a : A) (f : A -> M B) self h :
  bind (ret a) f self h = f a self h.
Proof.
  unfold bind, ret. rewrite app_nil_r.
  destruct (f a self h) as [[r s] evs]. reflexivity.
Qed.

Lemma run_bind_raise (e : Exception) (f : A -> M B) self h :
  bind (raise e) f self h = (inl e, self, []).
Proof. reflexivity. Qed.

Lemma run_bind_lift (r : result A) (f : A -> M B) self h :
  bind (lift r) f self h =
  match r with
  | inl e => (inl e, self, [])
  | inr a => f a self h
  end.
Proof.
  unfold bind, lift. destruct r as [e|a]; [reflexivity|].
  rewrite app_nil_r. destruct (f a self h) as [[r s] evs]. reflexivity.
Qed.

Lemma run_bind_call (reply : History -> result A)
    (event : result A -> Event) (f : A -> M B) self h :
  bind (call reply event) f self h =
  match reply h with
  | inl e => (inl e, self, [event (inl e)])
  | inr a =>
      let next := f a self (h ++ [event (inr a)]) in
      (outcome next, self_after next, event (inr a) :: events next)
  end.
Proof.
  unfold bind, call. destruct (reply h) as [e|a]; [reflexivity|].
  cbv zeta. destruct (f a self _) as [[r s] evs]. reflexivity.
Qed.

Lemma run_bind_assoc {C : Type} (m : M A) (f : A -> M B) (g : B -> M C)
    self h :
  bind (bind m f) g self h = bind m (fun x => bind (f x) g) self h.
Proof.
  unfold bind. destruct (m self h) as [[[e|a] s1] evs1]; [reflexivity|].
  destruct (f a s1 (h ++ evs1)) as [[[e|b] s2] evs2]; [reflexivity|].
  rewrite <- app_assoc.
  destruct (g b s2 (h ++ evs1 ++ evs2)) as [[r s3] evs3].
  now rewrite app_assoc.
Qed.
End MonadRuns.

Lemma run_bind_get_self {B} (f : MCPClient -> M B) self h :
  bind get_self f self h = f self self h.
Proof.
  unfold bind, get_self. rewrite app_nil_r.
  destruct (f self self h) as [[r s] evs]. reflexivity.
Qed.

Lemma run_bind_the_session {B} (attribute : string)
    (f : StdioServerParameters -> M B) self h :
  bind (the_session attribute) f self h =
  match session self with
  | Some s => f s self h
  | None =>
      (inl (AttributeError
              (lit "'NoneType' object has no attribute '" ++ lit attribute
                 ++ lit "'")), self, [])
  end.
Proof.
  unfold the_session. rewrite run_bind_assoc, run_bind_get_self.
  destruct (session self); [apply run_bind_ret | apply run_bind_raise].
Qed.

Lemma run_bind_set_self {B} (self' : MCPClient) (f : unit -> M B) self h :
  bind (set_self self') f self h = f tt self' h.
Proof.
  unfold bind, set_self. rewrite app_nil_r.
  destruct (f tt self' h) as [[r s] evs]. reflexivity.
Qed.

Lemma run_bind_attempt {B} (reply : History -> result unit) (event : Event)
    (f : unit -> M B) self h :
  bind (attempt reply event) f self h =
  match reply h with
  | inl e => (inl e, self, [event])
  | inr u =>
      let next := f u self (h ++ [event]) in
      (outcome next, self_after next, event :: events next)
  end.
Proof.
  unfold bind, attempt. destruct (reply h) as [e|u]; [reflexivity|].
  cbv zeta. destruct (f u self (h ++ [event])) as [[r s] evs]. reflexivity.
Qed.

Lemma run_bind_events {A B} (m : M A) (f : A -> M B) self h :
  events (bind m f self h)
  = events (m self h)
      ++ match outcome (m self h) with
         | inl _ => []
         | inr a =>
             events (f a (self_after (m self h)) (h ++ events (m self h)))
         end.
Proof.
  unfold bind, events, outcome, self_after.
  destruct (m self h) as [[[e|a] s1] evs1]; simpl.
  - now rewrite app_nil_r.
  - destruct (f a s1 (h ++ evs1)) as [[r s2] evs2]. reflexivity.
Qed.


Lemma run_surjective {A} (run : result A * MCPClient * list Event) :
  run = (outcome run, self_after run, events run).
Proof. now destruct run as [[r s] evs]. Qed.

Ltac conjs := repeat match goal with |- _ /\ _ => refine (conj _ _) end.

Section Traces.
Variable env : Env.

Lemma requests_app (a b : list Event) :
  requests (a ++ b) = requests a ++ requests b.
Proof.
  induction a as [|e a IH]; simpl; [reflexivity|].
  destruct e; simpl; rewrite ?IH; reflexivity.
Qed.

Lemma invoked_app (a b : list Event) :
  invoked (a ++ b) = invoked a ++ invoked b.
Proof.
  induction a as [|e a IH]; simpl; [reflexivity|].
  destruct e; simpl; rewrite ?IH; reflexivity.
Qed.

Lemma returned_app (a b : list Event) :
  returned (a ++ b) = returned a ++ returned b.
Proof.
  induction a as [|e a IH]; simpl; [reflexivity|].
  destruct e as [| | | |? ? [?|?]| | | | |]; simpl; rewrite ?IH; reflexivity.
Qed.

(** One turn of the loop, case by case. *)
Lemma tool_call_loop_step (tc : ToolCall) (rest : list ToolCall)
    (msgs : list Message) (ft : list str) (self : MCPClient) (h : History) :
  let name := fn_name (tc_function tc) in
  let run := tool_call_loop env (tc :: rest) msgs ft self h in
  match json_loads env (fn_arguments (tc_function tc)) with
  | inl e => run = (inl e, self, [])
  | inr a =>
      match session self with
      | None => exists e, run = (inl e, self, [])
      | Some _ =>
          match call_tool_reply env h name a with
          | inl e => run = (inl e, self, [EvCallTool name a (inl e)])
          | inr res =>
              let msgs' := msgs ++ pair_messages env (tc, res) in
              let req := follow_up_request self msgs' in
              let h1 := h ++ [EvCallTool name a (inr res)] in
              match create_reply env h1 req with
              | inl e =>
                  run = (inl e, self,
                         [EvCallTool name a (inr res); EvCreate req (inl e)])
              | inr resp =>
                  match choices resp with
                  | [] =>
                      exists e,
                      run = (inl e, self,
                             [EvCallTool name a (inr res);
                              EvCreate req (inr resp)])
                  | m :: _ =>
                      exists ft',
                      let next :=
                        tool_call_loop env rest msgs' ft' self
                          (h1 ++ [EvCreate req (inr resp)]) in
                      run = (outcome next, self_after next,
                             EvCallTool name a (inr res)
                               :: EvCreate req (inr resp) :: events next)
                  end
              end
          end
      end
  end.
Proof.
  cbv zeta. simpl tool_call_loop. rewrite run_bind_lift.
  destruct (json_loads env (fn_arguments (tc_function tc))) as [e|a];
    [reflexivity|].
  unfold call_tool. rewrite run_bind_assoc, run_bind_the_session.
  destruct (session self) as [s|]; [|eexists; reflexivity].
  rewrite run_bind_call.
  destruct (call_tool_reply env h (fn_name (tc_function tc)) a) as [e|res];
    [reflexivity|].
  cbv zeta. rewrite run_bind_get_self. unfold create.
  rewrite run_bind_call. unfold pair_messages. simpl fst. simpl snd.
  match goal with |- context [create_reply env ?hh ?rq] =>
    destruct (create_reply env hh rq) as [e|resp] end; [reflexivity|].
  cbv zeta. unfold first_message.
  destruct (choices resp) as [|m ms].
  - rewrite !run_bind_raise. eexists. reflexivity.
  - rewrite !run_bind_ret. eexists. reflexivity.
Qed.

Lemma tool_call_loop_shape (calls : list ToolCall) :
  forall msgs ft self h,
  let run := tool_call_loop env calls msgs ft self h in
  exists rounds tail,
    events run = rounds_trace env self msgs rounds ++ tail
    /\ self_after run = self
    /\ map round_call rounds = firstn (length rounds) calls
    /\ Forall (decoded env) rounds
    /\ (tail = [] \/
        exists e, failed_call env calls (length rounds) tail e
                  /\ outcome run = inl e)
    /\ (forall lists, outcome run = inr lists ->
          length rounds = length calls /\ tail = []
          /\ fst lists
             = msgs ++ pairs env (combine calls (map round_result rounds))).
Proof.
  induction calls as [|tc rest IH]; intros msgs ft self h run.
  - exists [], []. subst run. simpl. conjs; auto.
    intros lists [= <-]. simpl. now rewrite app_nil_r.
  - pose proof (tool_call_loop_step tc rest msgs ft self h) as Hstep.
    cbv zeta in Hstep. subst run.
    set (name := fn_name (tc_function tc)) in *.
    destruct (json_loads env (fn_arguments (tc_function tc))) as [e|a] eqn:Ej.
    { exists [], []. rewrite Hstep. simpl. conjs; auto.
      intros lists Hl; discriminate Hl. }
    destruct (session self) as [s|].
    2:{ destruct Hstep as [e Hstep]. exists [], []. rewrite Hstep. simpl.
        conjs; auto. intros lists Hl; discriminate Hl. }
    destruct (call_tool_reply env h name a) as [e|res] eqn:Ec.
    { exists [], [EvCallTool name a (inl e)].
      rewrite Hstep. simpl. conjs; auto.
      - right. exists e. split; [|reflexivity]. exists tc, a. auto.
      - intros lists Hl; discriminate Hl. }
    set (msgs' := msgs ++ pair_messages env (tc, res)) in *.
    set (req := follow_up_request self msgs') in *.
    destruct (create_reply env (h ++ [EvCallTool name a (inr res)]) req)
      as [e|resp] eqn:Er.
    { exists [{| round_call := tc; round_args := a; round_result := res;
                 round_reply := inl e |}], [].
      rewrite Hstep. simpl. conjs; auto.
      intros lists Hl; discriminate Hl. }
    destruct (choices resp) as [|m ms] eqn:Ech.
    { destruct Hstep as [e Hstep].
      exists [{| round_call := tc; round_args := a; round_result := res;
                 round_reply := inr resp |}], [].
      rewrite Hstep. simpl. conjs; auto.
      intros lists Hl; discriminate Hl. }
    destruct Hstep as [ft' Hstep]. cbv zeta in Hstep.
    specialize (IH msgs' ft' self
                  ((h ++ [EvCallTool name a (inr res)])
                     ++ [EvCreate req (inr resp)])).
    cbv zeta in IH.
    destruct IH as (rounds & tail & Hev & Hself & Hcalls & Hdec & Htail & Hok).
    exists ({| round_call := tc; round_args := a; round_result := res;
               round_reply := inr resp |} :: rounds), tail.
    rewrite Hstep. unfold outcome at 1 3, self_after at 1, events at 1.
    simpl fst. simpl snd. simpl rounds_trace. fold msgs'. fold req.
    rewrite Hev. conjs.
    + reflexivity.
    + exact Hself.
    + simpl. now rewrite Hcalls.
    + constructor; [exact Ej | exact Hdec].
    + destruct Htail as [->|(e & (tc' & a' & Hn & Hj & Ht) & Ho)];
        [now left | right].
      exists e. split; [|exact Ho]. exists tc', a'. simpl. auto.
    + intros lists Hl. destruct (Hok _ Hl) as (Hlen & Ht & ->).
      conjs; [simpl; now f_equal | exact Ht |].
      simpl. unfold msgs', pairs. simpl. now rewrite <- app_assoc.
Qed.

(** ** The trace of the rounds *)

Lemma requests_rounds_trace self (rounds : list Round) :
  forall msgs k req,
  nth_error (requests (rounds_trace env self msgs rounds)) k = Some req ->
  req = follow_up_request self
          (msgs ++ pairs env (firstn (S k) (map round_pair rounds))).
Proof.
  induction rounds as [|r rest IH]; intros msgs k req H.
  - destruct k; discriminate H.
  - destruct k as [|k]; simpl in H.
    + injection H as <-. simpl. unfold pairs. simpl.
      rewrite ?app_nil_r. reflexivity.
    + apply IH in H. rewrite H. f_equal.
      change (firstn (S (S k)) (map round_pair (r :: rest)))
        with (round_pair r :: firstn (S k) (map round_pair rest)).
      unfold pairs. simpl. now rewrite <- app_assoc.
Qed.

Lemma requests_rounds_trace_length self (rounds : list Round) :
  forall msgs, length (requests (rounds_trace env self msgs rounds))
               = length rounds.
Proof.
  induction rounds as [|r rest IH]; intros msgs; simpl; [reflexivity|].
  now rewrite IH.
Qed.

Lemma invoked_rounds_trace self (rounds : list Round) :
  forall msgs,
  invoked (rounds_trace env self msgs rounds)
  = map (fun r => (fn_name (tc_function (round_call r)), round_args r))
        rounds.
Proof.
  induction rounds as [|r rest IH]; intros msgs; simpl; [reflexivity|].
  now rewrite IH.
Qed.

Lemma returned_rounds_trace self (rounds : list Round) :
  forall msgs,
  returned (rounds_trace env self msgs rounds) = map round_result rounds.
Proof.
  induction rounds as [|r rest IH]; intros msgs; simpl; [reflexivity|].
  now rewrite IH.
Qed.

Lemma discoveries_rounds_trace self (rounds : list Round) :
  forall msgs, discoveries (rounds_trace env self msgs rounds) = 0.
Proof.
  induction rounds as [|r rest IH]; intros msgs; simpl; [reflexivity|].
  apply IH.
Qed.

Lemma discoveries_app (a b : list Event) :
  discoveries (a ++ b) = discoveries a + discoveries b.
Proof.
  induction a as [|e a IH]; simpl; [reflexivity|].
  destruct e; simpl; rewrite ?IH; reflexivity.
Qed.

(** What a trace ends with when a turn stops in [call_tool]. *)
Lemma tail_requests calls n tail :
  tail = [] \/ (exists e, failed_call env calls n tail e) ->
  requests tail = [] /\ returned tail = [] /\ discoveries tail = 0
  /\ length (invoked tail) <= 1.
Proof.
  intros [->|(e & tc & a & _ & _ & ->)]; simpl; auto.
Qed.

(** The pairs of the rounds are those of the calls with the results. *)
Lemma round_pairs_combine (rounds : list Round) (calls : list ToolCall) :
  map round_call rounds = firstn (length rounds) calls ->
  map round_pair rounds = combine calls (map round_result rounds).
Proof.
  revert calls. induction rounds as [|r rest IH]; intros calls H.
  - now destruct calls.
  - destruct calls as [|tc calls]; [discriminate H|].
    simpl in H. injection H as Hc Hrest. simpl.
    unfold round_pair at 1. rewrite Hc. f_equal. now apply IH.
Qed.

(** ** [process_query], case by case *)

Lemma process_query_lists_cases (query : str) (self : MCPClient)
    (h : History) :
  let run := process_query_lists env query self h in
  match session self with
  | None => exists e, run = (inl e, self, [])
  | Some _ =>
      match list_tools_reply env h with
      | inl e => run = (inl e, self, [EvListTools (inl e)])
      | inr ts =>
          let req :=
            first_request self [user_message query]
              (map tool_declaration ts) in
          let h1 := h ++ [EvListTools (inr ts)] in
          match create_reply env h1 req with
          | inl e =>
              run = (inl e, self,
                     [EvListTools (inr ts); EvCreate req (inl e)])
          | inr resp =>
              match choices resp with
              | [] =>
                  exists e,
                  run = (inl e, self,
                         [EvListTools (inr ts); EvCreate req (inr resp)])
              | m :: _ =>
                  let next :=
                    tool_call_loop env (pending_calls m)
                      [user_message query] (append_content [] m) self
                      (h1 ++ [EvCreate req (inr resp)]) in
                  run = (outcome next, self_after next,
                         EvListTools (inr ts)
                           :: EvCreate req (inr resp) :: events next)
              end
          end
      end
  end.
Proof.
  cbv zeta. unfold process_query_lists, list_tools.
  rewrite run_bind_assoc, run_bind_the_session.
  destruct (session self) as [s|]; [|eexists; reflexivity].
  rewrite run_bind_call.
  destruct (list_tools_reply env h) as [e|ts]; [reflexivity|].
  cbv zeta. rewrite !run_bind_get_self. unfold create.
  rewrite !run_bind_call.
  match goal with |- context [create_reply env ?hh ?rq] =>
    destruct (create_reply env hh rq) as [e|resp] end; [reflexivity|].
  cbv zeta. unfold first_message.
  destruct (choices resp) as [|m ms].
  - rewrite !run_bind_raise. eexists. reflexivity.
  - rewrite !run_bind_ret. reflexivity.
Qed.

Lemma process_query_run (query : str) (self : MCPClient) (h : History) :
  let lists := process_query_lists env query self h in
  process_query env query self h
  = (match outcome lists with
     | inl e => inl e
     | inr l => inr (join newline (snd l))
     end, self_after lists, events lists).
Proof.
  cbv zeta. unfold process_query, bind, ret, outcome, self_after, events.
  destruct (process_query_lists env query self h) as [[[e|l] s] evs];
    simpl; [reflexivity|].
  now rewrite app_nil_r.
Qed.

Lemma process_query_events (query : str) (self : MCPClient) (h : History) :
  events (process_query env query self h)
  = events (process_query_lists env query self h).
Proof. now rewrite process_query_run. Qed.

(** The shape of a run in which a first completion came back. *)
Lemma process_query_lists_shape (query : str) (self : MCPClient)
    (h : History) (m : ChatCompletionMessage) :
  let run := process_query_lists env query self h in
  let calls := pending_calls m in
  first_completion_message (events run) = Some m ->
  exists ts resp rounds tail,
    hd_error (choices resp) = Some m
    /\ list_tools_reply env h = inr ts
    /\ events run
       = EvListTools (inr ts)
           :: EvCreate (first_request self [user_message query]
                          (map tool_declaration ts)) (inr resp)
           :: rounds_trace env self [user_message query] rounds ++ tail
    /\ self_after run = self
    /\ map round_call rounds = firstn (length rounds) calls
    /\ Forall (decoded env) rounds
    /\ (tail = [] \/
        exists e, failed_call env calls (length rounds) tail e
                  /\ outcome run = inl e)
    /\ (forall lists, outcome run = inr lists ->
          length rounds = length calls /\ tail = []
          /\ fst lists
             = user_message query
                 :: pairs env (combine calls (map round_result rounds))).
Proof.
  cbv zeta. intros Hfirst.
  pose proof (process_query_lists_cases query self h) as Hc.
  cbv zeta in Hc.
  destruct (session self) as [s|].
  2:{ destruct Hc as [e Hc]. rewrite Hc in Hfirst. discriminate Hfirst. }
  destruct (list_tools_reply env h) as [e|ts].
  { rewrite Hc in Hfirst. discriminate Hfirst. }
  match type of Hc with context [create_reply env ?hh ?rq] =>
    destruct (create_reply env hh rq) as [e|resp] end.
  { rewrite Hc in Hfirst. discriminate Hfirst. }
  destruct (choices resp) as [|m' ms] eqn:Ech.
  { destruct Hc as [e Hc]. rewrite Hc in Hfirst. simpl in Hfirst.
    rewrite Ech in Hfirst. discriminate Hfirst. }
  rewrite Hc in Hfirst. simpl in Hfirst. rewrite Ech in Hfirst.
  injection Hfirst as ->.
  match type of Hc with context [tool_call_loop env ?c ?ms0 ?ft ?sf ?hh] =>
    destruct (tool_call_loop_shape c ms0 ft sf hh)
      as (rounds & tail & Hev & Hself & Hcalls & Hdec & Htail & Hok)
  end.
  exists ts, resp, rounds, tail. rewrite Hc.
  unfold outcome at 1 3, self_after at 1, events at 1. simpl fst. simpl snd.
  rewrite Hev, Ech. conjs; auto.
Qed.

Lemma process_query_lists_no_calls (query : str) (self : MCPClient)
    (h : History) (s : StdioServerParameters) (ts : list Tool)
    (resp : ChatCompletion) (m : ChatCompletionMessage)
    (others : list ChatCompletionMessage) :
  let request :=
    first_request self [user_message query] (map tool_declaration ts) in
  session self = Some s ->
  list_tools_reply env h = inr ts ->
  create_reply env (h ++ [EvListTools (inr ts)]) request = inr resp ->
  choices resp = m :: others ->
  pending_calls m = [] ->
  process_query_lists env query self h
  = (inr ([user_message query], append_content [] m), self,
     [EvListTools (inr ts); EvCreate request (inr resp)]).
Proof.
  cbv zeta. intros Hs Hl Hcr Hch Hnone.
  pose proof (process_query_lists_cases query self h) as Hc.
  cbv zeta in Hc. rewrite Hs, Hl, Hcr, Hch, Hnone in Hc. exact Hc.
Qed.

Lemma join_append_content (m : ChatCompletionMessage) :
  join newline (append_content [] m)
  = match cm_content m with Some c => c | None => [] end.
Proof.
  unfold append_content. destruct (cm_content m) as [[|c r]|]; reflexivity.
Qed.

(** C6. For every query whose first completion has no tool calls,
    [process_query] returns the content string of that completion
    (the empty string when it has none), exactly one completion
    request is made and no tool is invoked, and [messages] ends as it
    began, with the user message alone.  The completion is the one
    that the backend gives, at the history reached after the tools
    were listed, to the request that offers the tools the tool process
    listed; the run is the listing and that request, and nothing
    else. *)
Theorem process_query_without_tool_calls
    (query : str) (self : MCPClient) (h : History)
    (s : StdioServerParameters) (ts : list Tool) (resp : ChatCompletion)
    (m : ChatCompletionMessage) (others : list ChatCompletionMessage) :
  let run := process_query env query self h in
  let request :=
    first_request self [user_message query] (map tool_declaration ts) in
  session self = Some s ->
  list_tools_reply env h = inr ts ->
  create_reply env (h ++ [EvListTools (inr ts)]) request = inr resp ->
  choices resp = m :: others ->
  pending_calls m = [] ->
  run = (inr (match cm_content m with Some c => c | None => [] end), self,
         [EvListTools (inr ts); EvCreate request (inr resp)])
  /\ requests (events run) = [request]
  /\ invoked (events run) = []
  /\ (exists final_text,
        outcome (process_query_lists env query self h)
        = inr ([user_message query], final_text)).
Proof.
  cbv zeta. intros Hs Hl Hcr Hch Hnone.
  pose proof (process_query_lists_no_calls query self h Hs Hl Hcr Hch Hnone)
    as Hrun. cbv zeta in Hrun.
  rewrite process_query_run. cbv zeta. rewrite Hrun.
  cbn [outcome self_after events fst snd]. rewrite join_append_content.
  conjs; try reflexivity.
  now exists (append_content [] m).
Qed.


Lemma requests_rounds_trace_no_tools self (rounds : list Round) :
  forall msgs, Forall no_tools (requests (rounds_trace env self msgs rounds)).
Proof.
  induction rounds as [|r rest IH]; intros msgs; simpl; constructor.
  - now split.
  - apply IH.
Qed.

Lemma rounds_within (rounds : list Round) (calls : list ToolCall) :
  map round_call rounds = firstn (length rounds) calls ->
  length rounds <= length calls.
Proof.
  intros H. apply (f_equal (@length _)) in H.
  rewrite length_map, length_firstn in H. lia.
Qed.

(** The outcome of [process_query] is a text exactly when the lists
    were built. *)
Lemma process_query_returns (query : str) (self : MCPClient) (h : History)
    (text : str) :
  outcome (process_query env query self h) = inr text ->
  exists lists, outcome (process_query_lists env query self h) = inr lists.
Proof.
  rewrite process_query_run. cbv zeta. unfold outcome at 1. simpl.
  destruct (outcome (process_query_lists env query self h)) as [e|l];
    [discriminate | eauto].
Qed.


(** C1, as the code has it.  For every query whose first completion
    holds a list of tool calls that is not empty, the trace after the
    first request is a sequence of rounds, one per tool call in list
    order: the invocation of the call, then a completion request over
    the messages extended by the pair of that call.  Every such
    request offers no tools; there are as many of them as rounds, at
    most one per tool call and exactly one per tool call when
    [process_query] returns; so a query with N tool calls makes at
    most 1 + N completion requests. *)
Theorem process_query_follow_up_per_call
    (query : str) (self : MCPClient) (h : History)
    (m : ChatCompletionMessage) :
  let run := process_query env query self h in
  let calls := pending_calls m in
  first_completion_message (events run) = Some m ->
  calls <> [] ->
  exists ts resp rounds tail,
    events run
    = EvListTools (inr ts)
        :: EvCreate (first_request self [user_message query]
                       (map tool_declaration ts)) (inr resp)
        :: rounds_trace env self [user_message query] rounds ++ tail
    /\ map round_call rounds = firstn (length rounds) calls
    /\ (tail = [] \/ exists e, failed_call env calls (length rounds) tail e)
    /\ length (requests (events run)) = 1 + length rounds
    /\ length rounds <= length calls
    /\ Forall no_tools (tl (requests (events run)))
    /\ (forall text, outcome run = inr text ->
          length rounds = length calls /\ tail = []).
Proof.
  cbv zeta. rewrite process_query_events. intros Hfirst _.
  destruct (process_query_lists_shape query self h Hfirst)
    as (ts & resp & rounds & tail & _ & _ & Hev & _ & Hcalls & _
        & Htail & Hok).
  assert (Htail' : tail = [] \/
                   exists e, failed_call env (pending_calls m)
                               (length rounds) tail e).
  { destruct Htail as [->|(e & Hf & _)]; [now left | right; eauto]. }
  destruct (tail_requests Htail') as (Hreq & _).
  exists ts, resp, rounds, tail. rewrite Hev. simpl requests.
  rewrite requests_app, Hreq, app_nil_r. conjs.
  - reflexivity.
  - exact Hcalls.
  - exact Htail'.
  - simpl. now rewrite requests_rounds_trace_length.
  - now apply rounds_within.
  - simpl. apply requests_rounds_trace_no_tools.
  - intros text Htext. apply process_query_returns in Htext.
    destruct Htext as [lists Hl]. destruct (Hok _ Hl) as (H1 & H2 & _).
    now split.
Qed.


(** ** The pairs of messages *)

Lemma tool_call_ids_pairs (l : list (ToolCall * CallToolResult)) :
  tool_call_ids (pairs env l) = map (fun p => Some (tc_id (fst p))) l.
Proof.
  induction l as [|p l IH]; [reflexivity|].
  unfold tool_call_ids, pairs in *. simpl. now rewrite <- IH.
Qed.

Lemma map_fst_combine_same {A B} (a : list A) (b : list B) :
  length b = length a -> map fst (combine a b) = a.
Proof.
  revert b. induction a as [|x a IH]; intros [|y b] H; simpl in *;
    try discriminate; [reflexivity|].
  f_equal. apply IH. lia.
Qed.

(** C2, as the code has it.  In a run whose first completion came
    back, the request after the k-th tool call holds the user message
    followed by exactly the pairs (assistant tool call, tool result)
    of the first k calls, in the order of the list and with the
    results that the tool process returned: each call that is
    reached has its pair appended before the request that follows
    it.  When the two lists are built to the end, N results came back
    for the N calls, [messages] is the user message followed by the N
    pairs in list order, its tool-role messages carry the ids of the
    N calls in that order, and the last request holds all of it. *)
Theorem process_query_pairs_in_order
    (query : str) (self : MCPClient) (h : History)
    (m : ChatCompletionMessage) :
  let run := process_query env query self h in
  let calls := pending_calls m in
  let results := returned (events run) in
  first_completion_message (events run) = Some m ->
  (forall k req,
      nth_error (requests (events run)) (S k) = Some req ->
      S k <= length results /\ S k <= length calls
      /\ req = follow_up_request self
                 (user_message query
                    :: pairs env (firstn (S k) (combine calls results))))
  /\ (forall lists,
        outcome (process_query_lists env query self h) = inr lists ->
        length results = length calls
        /\ fst lists = user_message query :: pairs env (combine calls results)
        /\ tool_call_ids (fst lists) = map (fun tc => Some (tc_id tc)) calls
        /\ (calls <> [] ->
            nth_error (requests (events run)) (length calls)
            = Some (follow_up_request self (fst lists)))).
Proof.
  cbv zeta. rewrite process_query_events. intros Hfirst.
  destruct (process_query_lists_shape query self h Hfirst)
    as (ts & resp & rounds & tail & _ & _ & Hev & _ & Hcalls & _
        & Htail & Hok).
  assert (Htail' : tail = [] \/
                   exists e, failed_call env (pending_calls m)
                               (length rounds) tail e).
  { destruct Htail as [->|(e & Hf & _)]; [now left | right; eauto]. }
  destruct (tail_requests Htail') as (Hreq & Hret & _).
  assert (Hresults : returned (events (process_query_lists env query self h))
                     = map round_result rounds).
  { rewrite Hev. simpl. now rewrite returned_app, returned_rounds_trace,
      Hret, app_nil_r. }
  assert (Hrequests : requests (events (process_query_lists env query self h))
                      = first_request self [user_message query]
                          (map tool_declaration ts)
                          :: requests (rounds_trace env self
                                         [user_message query] rounds)).
  { rewrite Hev. simpl. now rewrite requests_app, Hreq, app_nil_r. }
  rewrite Hresults, Hrequests.
  pose proof (rounds_within _ _ Hcalls) as Hle.
  rewrite <- (round_pairs_combine _ _ Hcalls).
  split.
  - intros k req Hk. simpl in Hk.
    assert (Hlt : k < length rounds).
    { rewrite <- (requests_rounds_trace_length self rounds
                    [user_message query]).
      apply nth_error_Some. now rewrite Hk. }
    rewrite length_map. conjs; [lia | lia |].
    now apply requests_rounds_trace in Hk.
  - intros lists Hl. destruct (Hok _ Hl) as (Hlen & _ & Hfst).
    rewrite length_map.
    rewrite <- (round_pairs_combine _ _ Hcalls) in Hfst. conjs.
    + exact Hlen.
    + exact Hfst.
    + rewrite Hfst.
      change (tool_call_ids (user_message query
                               :: pairs env (map round_pair rounds)))
        with (tool_call_ids (pairs env (map round_pair rounds))).
      rewrite tool_call_ids_pairs, (round_pairs_combine _ _ Hcalls).
      rewrite <- (map_map fst (fun tc => Some (tc_id tc))).
      rewrite map_fst_combine_same; [reflexivity|].
      now rewrite length_map.
    + intros Hne. destruct (pending_calls m) as [|tc calls] eqn:Ec;
        [contradiction|].
      simpl length. simpl nth_error.
      destruct (nth_error (requests (rounds_trace env self
                                       [user_message query] rounds))
                  (length calls)) as [req|] eqn:En.
      * apply requests_rounds_trace in En. rewrite En, Hfst.
        simpl in Hlen. rewrite <- Hlen, <- (length_map round_pair).
        now rewrite firstn_all.
      * apply nth_error_None in En.
        rewrite requests_rounds_trace_length in En. simpl in Hlen. lia.
Qed.


(** ** Failures of the tools *)



Lemma In_firstn {A} (n : nat) (l : list A) (x : A) :
  In x (firstn n l) -> In x l.
Proof.
  intros H. rewrite <- (firstn_skipn n l). apply in_or_app. now left.
Qed.




(** ** [connect_to_server], case by case *)

Lemma connect_to_server_cases (path : str) (self : MCPClient)
    (h : History) :
  let run := connect_to_server env path self h in
  let is_python := endswith path (lit ".py") in
  let params :=
    {| command := if is_python then lit "python" else lit "node";
       args := [path] |} in
  let self1 :=
    {| session := session self; stdio := Some params;
       deployment := deployment self |} in
  let self2 :=
    {| session := Some params; stdio := Some params;
       deployment := deployment self |} in
  is_python || endswith path (lit ".js") = true ->
  match stdio_client_reply env h params with
  | inl e => run = (inl e, self, [EvStdioClient params (inl e)])
  | inr u1 =>
      let t1 := [EvStdioClient params (inr u1)] in
      match client_session_reply env (h ++ t1) with
      | inl e => run = (inl e, self1, t1 ++ [EvClientSession (inl e)])
      | inr u2 =>
          let t2 := t1 ++ [EvClientSession (inr u2)] in
          match initialize_reply env (h ++ t2) with
          | inl e => run = (inl e, self2, t2 ++ [EvInitialize (inl e)])
          | inr u3 =>
              let t3 := t2 ++ [EvInitialize (inr u3)] in
              match list_tools_reply env (h ++ t3) with
              | inl e => run = (inl e, self2, t3 ++ [EvListTools (inl e)])
              | inr ts =>
                  let line :=
                    newline ++ [9989%N]
                      ++ lit " Connected to server with tools: "
                      ++ repr_names env (map tool_name ts) in
                  run = (print_reply env (h ++ t3 ++ [EvListTools (inr ts)])
                           line,
                         self2, t3 ++ [EvListTools (inr ts); EvPrint line])
              end
          end
      end
  end.
Proof.
  cbv zeta. intros Hsup. unfold connect_to_server. rewrite Hsup.
  change (negb true) with false. cbv iota. rewrite run_bind_call.
  match goal with |- context [stdio_client_reply env h ?p] =>
    destruct (stdio_client_reply env h p) as [e|u1] end; [reflexivity|].
  cbv zeta. rewrite !run_bind_get_self, !run_bind_set_self, !run_bind_call.
  match goal with |- context [client_session_reply env ?hh] =>
    destruct (client_session_reply env hh) as [e|u2] end; [reflexivity|].
  cbv zeta. rewrite !run_bind_get_self, !run_bind_set_self, !run_bind_call.
  rewrite <- !app_assoc. simpl app.
  match goal with |- context [initialize_reply env ?hh] =>
    destruct (initialize_reply env hh) as [e|u3] end; [reflexivity|].
  cbv zeta. unfold list_tools.
  rewrite !run_bind_assoc, !run_bind_the_session. simpl session.
  rewrite !run_bind_call. rewrite <- !app_assoc. simpl app.
  match goal with |- context [list_tools_reply env ?hh] =>
    destruct (list_tools_reply env hh) as [e|ts] end; [reflexivity|].
  cbv zeta. unfold print, attempt.
  cbn [outcome self_after events fst snd]. rewrite <- !app_assoc.
  reflexivity.
Qed.


(** C5. For a path that ends neither in [.py] nor in [.js],
    [connect_to_server] raises the [ValueError] of the unsupported
    script kind with no event at all (no process spawned, nothing
    listed) and [self] unchanged.  For a path that ends in one of the
    two it spawns the process with the launcher of that kind, whatever
    the environment; when the spawn succeeds it opens the session; when
    that succeeds it performs the [initialize] handshake; when that
    succeeds it issues the [list_tools] call; when that succeeds it
    prints the names.  Each step gets the answer of the environment at
    the history reached so far, the first answer that is an exception
    is what the method raises, with nothing after it, and the session
    is set from the moment it is opened. *)
Theorem connect_to_server_script_kind
    (path : str) (self : MCPClient) (h : History) :
  let run := connect_to_server env path self h in
  let is_python := endswith path (lit ".py") in
  let is_js := endswith path (lit ".js") in
  let params :=
    {| command := if is_python then lit "python" else lit "node";
       args := [path] |} in
  let spawned := stdio_client_reply env h params in
  let t1 := [EvStdioClient params spawned] in
  let opened := client_session_reply env (h ++ t1) in
  let t2 := t1 ++ [EvClientSession opened] in
  let shaken := initialize_reply env (h ++ t2) in
  let t3 := t2 ++ [EvInitialize shaken] in
  let listed := list_tools_reply env (h ++ t3) in
  let t4 := t3 ++ [EvListTools listed] in
  (is_python = false -> is_js = false ->
   run = (inl (ValueError (lit "Server script must be a .py or .js file")),
          self, []))
  /\ (is_python || is_js = true ->
      match spawned, opened, shaken, listed with
      | inl e, _, _, _ => run = (inl e, self, t1)
      | inr _, inl e, _, _ =>
          run = (inl e,
                 {| session := session self; stdio := Some params;
                    deployment := deployment self |}, t2)
      | inr _, inr _, inl e, _ =>
          run = (inl e,
                 {| session := Some params; stdio := Some params;
                    deployment := deployment self |}, t3)
      | inr _, inr _, inr _, inl e =>
          run = (inl e,
                 {| session := Some params; stdio := Some params;
                    deployment := deployment self |}, t4)
      | inr _, inr _, inr _, inr ts =>
          let line :=
            newline ++ [9989%N] ++ lit " Connected to server with tools: "
              ++ repr_names env (map tool_name ts) in
          run = (print_reply env (h ++ t4) line,
                 {| session := Some params; stdio := Some params;
                    deployment := deployment self |},
                 t4 ++ [EvPrint line])
      end).
Proof.
  cbv zeta. split.
  - intros Hpy Hjs. unfold connect_to_server. rewrite Hpy, Hjs.
    reflexivity.
  - intros Hsup.
    pose proof (connect_to_server_cases path self h Hsup) as Hc.
    cbv zeta in Hc.
    set (params := {| command := if endswith path (lit ".py")
                                 then lit "python" else lit "node";
                      args := [path] |}) in *.
    destruct (stdio_client_reply env h params) as [e|u1]; [exact Hc|].
    simpl app in *.
    destruct (client_session_reply env (h ++ [EvStdioClient params (inr u1)]))
      as [e|u2]; [exact Hc|].
    destruct (initialize_reply env
                (h ++ [EvStdioClient params (inr u1);
                       EvClientSession (inr u2)])) as [e|u3]; [exact Hc|].
    destruct (list_tools_reply env
                (h ++ [EvStdioClient params (inr u1);
                       EvClientSession (inr u2); EvInitialize (inr u3)]))
      as [e|ts]; exact Hc.
Qed.

(** ** The first request of a query *)

Lemma discovered_app (a b : list Event) :
  discovered (a ++ b) = discovered a ++ discovered b.
Proof.
  induction a as [|e a IH]; simpl; [reflexivity|].
  destruct e as [| | |[?|?]| | | | | |]; simpl; rewrite ?IH; reflexivity.
Qed.

Lemma discovered_rounds_trace self (rounds : list Round) :
  forall msgs, discovered (rounds_trace env self msgs rounds) = [].
Proof.
  induction rounds as [|r rest IH]; intros msgs; simpl; [reflexivity|].
  apply IH.
Qed.

Lemma process_query_lists_head (query : str) (self : MCPClient)
    (h : History) (req : CompletionRequest) :
  let run := process_query_lists env query self h in
  nth_error (requests (events run)) 0 = Some req ->
  exists ts reply rest,
    list_tools_reply env h = inr ts
    /\ req = first_request self [user_message query]
               (map tool_declaration ts)
    /\ events run = EvListTools (inr ts) :: EvCreate req reply :: rest
    /\ discovered rest = [] /\ discoveries rest = 0.
Proof.
  cbv zeta. intros Hreq.
  pose proof (process_query_lists_cases query self h) as Hc.
  cbv zeta in Hc.
  destruct (session self) as [s|].
  2:{ destruct Hc as [e Hc]. rewrite Hc in Hreq. discriminate Hreq. }
  destruct (list_tools_reply env h) as [e|ts].
  { rewrite Hc in Hreq. discriminate Hreq. }
  match type of Hc with context [create_reply env ?hh ?rq] =>
    destruct (create_reply env hh rq) as [e|resp] end.
  { rewrite Hc in Hreq. injection Hreq as <-. rewrite Hc.
    now exists ts, (inl e), []. }
  destruct (choices resp) as [|m ms] eqn:Ech.
  { destruct Hc as [e Hc]. rewrite Hc in Hreq. injection Hreq as <-.
    rewrite Hc. now exists ts, (inr resp), []. }
  rewrite Hc in Hreq. injection Hreq as <-. rewrite Hc.
  match goal with |- context [tool_call_loop env ?c ?ms0 ?ft ?sf ?hh] =>
    destruct (tool_call_loop_shape c ms0 ft sf hh)
      as (rounds & tail & Hev & _ & _ & _ & Htail & _)
  end.
  eexists ts, (inr resp), _. conjs; try reflexivity.
  - rewrite Hev, discovered_app, discovered_rounds_trace.
    destruct Htail as [->|(e & (tc & a & _ & _ & ->) & _)]; reflexivity.
  - rewrite Hev, discoveries_app, discoveries_rounds_trace.
    destruct Htail as [->|(e & (tc & a & _ & _ & ->) & _)]; reflexivity.
Qed.

(** C4, as the code has it.  When [connect_to_server] returns, it
    has listed the tools once, to print their names, and the state it
    leaves holds the session and the transport only, no list of
    tools.  Every [process_query] that sends a first request has
    listed the tools itself, once, before any request, and the tools
    it declares are those of the list it got back at that moment. *)
Theorem tools_listed_by_each_query :
  (forall path self h,
      let run := connect_to_server env path self h in
      outcome run = inr tt ->
      exists params ts,
        discovered (events run) = [ts]
        /\ last (events run) EvAclose
           = EvPrint (newline ++ [9989%N]
                        ++ lit " Connected to server with tools: "
                        ++ repr_names env (map tool_name ts))
        /\ self_after run
           = {| session := Some params; stdio := Some params;
                deployment := deployment self |})
  /\ (forall query self h req,
        let run := process_query env query self h in
        nth_error (requests (events run)) 0 = Some req ->
        exists ts rest,
          list_tools_reply env h = inr ts
          /\ events run = EvListTools (inr ts) :: rest
          /\ discovered (events run) = [ts]
          /\ discoveries (events run) = 1
          /\ tools req = Some (map tool_declaration ts)).
Proof.
  split.
  - intros path self h run Ho. subst run.
    destruct (endswith path (lit ".py") || endswith path (lit ".js"))
      eqn:Hsup.
    2:{ apply orb_false_elim in Hsup. destruct Hsup as [Hpy Hjs].
        unfold connect_to_server in Ho. rewrite Hpy, Hjs in Ho.
        discriminate Ho. }
    pose proof (connect_to_server_cases path self h Hsup) as Hc.
    cbv zeta in Hc.
    set (params := {| command := if endswith path (lit ".py")
                                 then lit "python" else lit "node";
                      args := [path] |}) in *.
    destruct (stdio_client_reply env h params) as [e|u1].
    { rewrite Hc in Ho. discriminate Ho. }
    match type of Hc with context [client_session_reply env ?hh] =>
      destruct (client_session_reply env hh) as [e|u2] end.
    { rewrite Hc in Ho. discriminate Ho. }
    match type of Hc with context [initialize_reply env ?hh] =>
      destruct (initialize_reply env hh) as [e|u3] end.
    { rewrite Hc in Ho. discriminate Ho. }
    match type of Hc with context [list_tools_reply env ?hh] =>
      destruct (list_tools_reply env hh) as [e|ts] end.
    { rewrite Hc in Ho. discriminate Ho. }
    exists params, ts. rewrite Hc. conjs; reflexivity.
  - intros query self h req run Hreq. subst run.
    rewrite process_query_events in *.
    destruct (process_query_lists_head query self h Hreq)
      as (ts & reply & rest & Hl & -> & Hev & Hd & Hn).
    exists ts, (EvCreate (first_request self [user_message query]
                           (map tool_declaration ts)) reply :: rest).
    rewrite Hev. simpl. rewrite Hd, Hn. conjs; auto.
Qed.


(** ** The requests of a query and of the chat loop *)


Lemma process_query_requests (query : str) (self : MCPClient)
    (h : History) (req : CompletionRequest) :
  let run := process_query env query self h in
  In req (requests (events run)) ->
  request_of_query env query self (returned (events run)) req.
Proof.
  cbv zeta. rewrite process_query_events. intros Hin.
  pose proof (process_query_lists_cases query self h) as Hc.
  cbv zeta in Hc.
  destruct (session self) as [s|].
  2:{ destruct Hc as [e Hc]. rewrite Hc in Hin. contradiction. }
  destruct (list_tools_reply env h) as [e|ts].
  { rewrite Hc in Hin. contradiction. }
  match type of Hc with context [create_reply env ?hh ?rq] =>
    destruct (create_reply env hh rq) as [e|resp] end.
  { rewrite Hc in Hin. destruct Hin as [<-|[]]. left. eauto. }
  destruct (choices resp) as [|m ms] eqn:Ech.
  { destruct Hc as [e Hc]. rewrite Hc in Hin. destruct Hin as [<-|[]].
    left. eauto. }
  rewrite Hc in *. clear Hc.
  match goal with |- context [tool_call_loop env ?c ?ms0 ?ft ?sf ?hh] =>
    destruct (tool_call_loop_shape c ms0 ft sf hh)
      as (rounds & tail & Hev & _ & _ & _ & Htail & _)
  end.
  unfold events at 1 in Hin. unfold events at 1. simpl snd in *.
  rewrite Hev in *. simpl in Hin. destruct Hin as [<-|Hin];
    [left; eauto | right].
  assert (Htail' : tail = [] \/
                   exists e, failed_call env (pending_calls m)
                               (length rounds) tail e).
  { destruct Htail as [->|(e & Hf & _)]; [now left | right; eauto]. }
  destruct (tail_requests Htail') as (Hreq & Hret & _).
  rewrite requests_app, Hreq, app_nil_r in Hin.
  apply In_nth_error in Hin. destruct Hin as [k Hk].
  apply requests_rounds_trace in Hk.
  exists (firstn (S k) (map round_pair rounds)). split; [exact Hk|].
  simpl returned. rewrite returned_app, returned_rounds_trace, Hret,
    app_nil_r.
  apply Forall_forall. intros p Hp. apply In_firstn in Hp.
  apply in_map_iff in Hp. destruct Hp as (r & <- & Hr).
  simpl. now apply in_map.
Qed.




Lemma chat_loop_requests (turns : nat) (self : MCPClient) (h : History)
    (req : CompletionRequest) :
  In req (requests (events (chat_loop env turns self h))) ->
  exists h', In req (requests (events (chat_turns env turns self h'))).
Proof.
  unfold chat_loop, print. rewrite run_bind_attempt.
  match goal with |- context [print_reply env h ?t] =>
    destruct (print_reply env h t) as [e|u] end; [intros [] |].
  cbv zeta. unfold events at 1. simpl snd. rewrite run_bind_attempt.
  match goal with |- context [print_reply env ?hh ?t] =>
    destruct (print_reply env hh t) as [e|u'] end; [intros [] |].
  cbv zeta. unfold events at 1. simpl snd. eauto.
Qed.


End Traces.

(* ===================================================================== *)
(** * Runs against the demo tool process *)
(* ===================================================================== *)

Section Runs.

(** The first completion asks for two tools; three completion
    requests are made, one after each tool call. *)
Lemma process_query_two_calls_three_requests :
  first_completion_message (events Demo.run_two) = Some Demo.two_calls
  /\ pending_calls Demo.two_calls <> []
  /\ map event_kind (events Demo.run_two)
     = ["list_tools"; "create"; "call_tool"; "create"; "call_tool";
        "create"]%string
  /\ length (requests (events Demo.run_two)) = 3
  /\ ~ length (requests (events Demo.run_two)) <= 2.
Proof.
  assert (H : length (requests (events Demo.run_two)) = 3)
    by (vm_compute; reflexivity).
  conjs.
  - vm_compute; reflexivity.
  - discriminate.
  - vm_compute; reflexivity.
  - exact H.
  - rewrite H. lia.
Qed.

Lemma process_query_follow_up_per_call_witness :
  first_completion_message (events Demo.run_two) = Some Demo.two_calls
  /\ pending_calls Demo.two_calls <> []
  /\ length (requests (events Demo.run_two))
     <= 1 + length (pending_calls Demo.two_calls).
Proof.
  assert (H1 : first_completion_message (events Demo.run_two) = Some Demo.two_calls)
    by (vm_compute; reflexivity).
  assert (H2 : pending_calls Demo.two_calls <> []) by discriminate.
  conjs; [exact H1 | exact H2 |].
  destruct (@process_query_follow_up_per_call (Demo.env [])
              (lit "echo hello and count a b c") Demo.connected []
              Demo.two_calls H1 H2)
    as (ts & resp & rounds & tail & _ & _ & _ & Hlen & Hle & _).
  change (process_query (Demo.env []) (lit "echo hello and count a b c")
            Demo.connected []) with Demo.run_two in Hlen.
  rewrite Hlen.
  apply le_n_S. exact Hle.
Defined.

(** The request that follows the first completion is sent when only
    the first of the two calls has its pair in the messages. *)
Lemma process_query_second_request_one_pair :
  first_completion_message (events Demo.run_two) = Some Demo.two_calls
  /\ length (pending_calls Demo.two_calls) = 2
  /\ exists req,
       nth_error (requests (events Demo.run_two)) 1 = Some req
       /\ map role (messages req) = [user; assistant; tool]
       /\ tool_call_ids (messages req) = [Some (lit "call_1")]
       /\ ~ In (Some (lit "call_2")) (tool_call_ids (messages req)).
Proof.
  conjs; try (vm_compute; reflexivity).
  eexists. conjs; try (vm_compute; reflexivity).
  vm_compute. intros [H|[]]. discriminate H.
Qed.

Lemma process_query_pairs_in_order_witness :
  first_completion_message (events Demo.run_two) = Some Demo.two_calls
  /\ tool_call_ids (fst Demo.lists_two)
     = [Some (lit "call_1"); Some (lit "call_2")]
  /\ nth_error (requests (events Demo.run_two)) 2
     = Some (follow_up_request Demo.connected (fst Demo.lists_two)).
Proof.
  assert (H1 : first_completion_message (events Demo.run_two)
               = Some Demo.two_calls)
    by (vm_compute; reflexivity).
  assert (Ho : outcome (process_query_lists (Demo.env [])
                          (lit "echo hello and count a b c")
                          Demo.connected [])
               = inr Demo.lists_two)
    by (vm_compute; reflexivity).
  split; [exact H1|].
  destruct (@process_query_pairs_in_order (Demo.env [])
              (lit "echo hello and count a b c") Demo.connected []
              Demo.two_calls H1) as [_ Hall].
  destruct (Hall Demo.lists_two Ho) as (_ & _ & Hids & Hlast).
  split; [exact Hids|].
  apply Hlast. discriminate.
Defined.



(** A session of one query: the tools are listed at connect time and
    again by the query, and the query declares the second list, which
    is not the first. *)
Lemma main_lists_tools_again :
  outcome Demo.run_main = inr true
  /\ discoveries (events Demo.run_main) = 2
  /\ discovered (events Demo.run_main)
     = [[Demo.echo_tool]; [Demo.echo_tool; Demo.word_count_tool]]
  /\ map tools (requests (events Demo.run_main))
     = [Some (map tool_declaration
                [Demo.echo_tool; Demo.word_count_tool])]
  /\ map tools (requests (events Demo.run_main))
     <> [Some (map tool_declaration [Demo.echo_tool])].
Proof.
  conjs; try (vm_compute; reflexivity).
  vm_compute. discriminate.
Qed.

Lemma tools_listed_by_each_query_witness :
  (exists ts,
     discovered (events (connect_to_server (Demo.env [])
                           (lit "demo_tools.py") (init None) []))
     = [ts])
  /\ nth_error (requests (events Demo.run_hi)) 0 = Some Demo.request_hi
  /\ exists ts,
       list_tools_reply (Demo.env []) [] = inr ts
       /\ discoveries (events Demo.run_hi) = 1
       /\ tools Demo.request_hi = Some (map tool_declaration ts).
Proof.
  destruct (tools_listed_by_each_query (Demo.env [])) as [Hconnect Hquery].
  assert (Hreq : nth_error (requests (events Demo.run_hi)) 0
                 = Some Demo.request_hi)
    by (vm_compute; reflexivity).
  conjs.
  - destruct (Hconnect (lit "demo_tools.py") (init None) [] eq_refl)
      as (params & ts & Hd & _). exists ts. exact Hd.
  - exact Hreq.
  - destruct (Hquery (lit "hi") Demo.connected [] Demo.request_hi Hreq)
      as (ts & rest & Hl & _ & _ & Hn & Ht).
    exists ts. conjs; [exact Hl | exact Hn | exact Ht].
Defined.

Lemma connect_to_server_script_kind_witness :
  connect_to_server (Demo.env []) (lit "server.txt") (init None) []
  = (inl (ValueError (lit "Server script must be a .py or .js file")),
     init None, [])
  /\ connect_to_server (Demo.env []) (lit "demo_tools.py") (init None) []
     = (inr tt,
        {| session := Some Demo.server_params;
           stdio := Some Demo.server_params; deployment := None |},
        [EvStdioClient Demo.server_params (inr tt); EvClientSession (inr tt);
         EvInitialize (inr tt);
         EvListTools (inr [Demo.echo_tool; Demo.word_count_tool]);
         EvPrint (newline ++ [9989%N]
                    ++ lit " Connected to server with tools: "
                    ++ lit "['echo', 'word_count']")])
  /\ connect_to_server Demo.dead_env (lit "server.js") (init None) []
     = (inl (LibraryError (lit "Connection closed")),
        {| session := Some {| command := lit "node";
                              args := [lit "server.js"] |};
           stdio := Some {| command := lit "node";
                            args := [lit "server.js"] |};
           deployment := None |},
        [EvStdioClient {| command := lit "node"; args := [lit "server.js"] |}
           (inr tt);
         EvClientSession (inr tt);
         EvInitialize (inl (LibraryError (lit "Connection closed")))]).
Proof.
  split; [|split].
  - exact (proj1 (@connect_to_server_script_kind (Demo.env [])
                    (lit "server.txt") (init None) []) eq_refl eq_refl).
  - exact (proj2 (@connect_to_server_script_kind (Demo.env [])
                    (lit "demo_tools.py") (init None) []) eq_refl).
  - exact (proj2 (@connect_to_server_script_kind Demo.dead_env
                    (lit "server.js") (init None) []) eq_refl).
Defined.

Lemma process_query_without_tool_calls_witness :
  Demo.run_hi
  = (inr (lit "Hello!"), Demo.connected,
     [EvListTools (inr [Demo.echo_tool; Demo.word_count_tool]);
      EvCreate Demo.request_hi (inr (Demo.say (lit "Hello!")))])
  /\ requests (events Demo.run_hi) = [Demo.request_hi]
  /\ invoked (events Demo.run_hi) = [].
Proof.
  destruct (@process_query_without_tool_calls (Demo.env [])
              (lit "hi") Demo.connected [] Demo.server_params
              [Demo.echo_tool; Demo.word_count_tool]
              (Demo.say (lit "Hello!")) Demo.hello []
              eq_refl eq_refl eq_refl eq_refl eq_refl)
    as (Hrun & Hreq & Hinv & _).
  conjs; [exact Hrun | exact Hreq | exact Hinv].
Defined.


(** An unknown tool comes back from the tool process as a result
    flagged as an error: its text is the content of the tool-role
    message, and the loop goes on to the second call. *)
Example process_query_unknown_tool_goes_on :
  map fst (invoked (events Demo.run_shout)) = [lit "shout"; lit "echo"]
  /\ map isError (returned (events Demo.run_shout)) = [true; false]
  /\ length (requests (events Demo.run_shout)) = 3
  /\ exists text, outcome Demo.run_shout = inr text.
Proof.
  conjs; try (vm_compute; reflexivity).
  eexists. vm_compute. reflexivity.
Qed.

End Runs.

(* ===================================================================== *)
(** * More on the tools *)
(* ===================================================================== *)

Section StripFacts.

Lemma lstrip_spaces (ws s : str) :
  Forall (fun c => isspace c = true) ws -> lstrip (ws ++ s) = lstrip s.
Proof.
  induction 1 as [|c ws Hc _ IH]; simpl; [reflexivity|].
  now rewrite Hc.
Qed.

Lemma lstrip_word (w s : str) :
  w <> [] -> Forall (fun c => isspace c = false) w -> lstrip (w ++ s) = w ++ s.
Proof.
  intros Hne Hw. destruct Hw as [|c w Hc _]; [contradiction|].
  simpl. now rewrite Hc.
Qed.

(** [strip] takes the whitespace off both ends of a padded word. *)
Lemma strip_padded (ws1 w ws2 : str) :
  Forall (fun c => isspace c = true) ws1 ->
  Forall (fun c => isspace c = false) w ->
  Forall (fun c => isspace c = true) ws2 ->
  strip (ws1 ++ w ++ ws2) = w.
Proof.
  intros H1 Hw H2. unfold strip, rstrip. rewrite lstrip_spaces by assumption.
  destruct w as [|c w].
  - simpl. rewrite <- (app_nil_r ws2), lstrip_spaces by assumption.
    reflexivity.
  - rewrite lstrip_word by (assumption || discriminate).
    rewrite rev_app_distr, lstrip_spaces by now apply Forall_rev.
    rewrite <- (app_nil_r (rev (c :: w))), lstrip_word.
    + now rewrite app_nil_r, rev_involutive.
    + intros E. apply (f_equal (@length _)) in E.
      rewrite length_rev in E. discriminate E.
    + now apply Forall_rev.
Qed.

Lemma upper_is_C (s : str) :
  upper s = lit "C" <-> s = lit "C" \/ s = lit "c".
Proof.
  split.
  - destruct s as [|c [|d r]]; try discriminate. simpl. intros [= H].
    unfold upper_char in H.
    destruct (N.leb_spec 97 c), (N.leb_spec c 122); simpl in H;
      try (right; f_equal; lia);
      destruct (N.eqb_spec c 305); try discriminate;
      destruct (N.eqb_spec c 383); try discriminate;
      left; f_equal; lia.
  - intros [->| ->]; reflexivity.
Qed.

Lemma upper_is_F (s : str) :
  upper s = lit "F" <-> s = lit "F" \/ s = lit "f".
Proof.
  split.
  - destruct s as [|c [|d r]]; try discriminate. simpl. intros [= H].
    unfold upper_char in H.
    destruct (N.leb_spec 97 c), (N.leb_spec c 122); simpl in H;
      try (right; f_equal; lia);
      destruct (N.eqb_spec c 305); try discriminate;
      destruct (N.eqb_spec c 383); try discriminate;
      left; f_equal; lia.
  - intros [->| ->]; reflexivity.
Qed.

End StripFacts.

Section MoreOnTools.

Import PyFloat Tools.

(** ** The units of [convert_temperature] *)

(** X1. For every value, a unit that is the letter C in either case,
    with any whitespace around it, selects the Celsius branch: the
    message renders the value and the float [value * 9 / 5 + 32], each
    with two decimal places and each followed by a narrow no-break
    space (U+202F) and the degree sign. *)
Theorem convert_temperature_celsius
    (value : float) (ws1 ws2 : str) (u : N) :
  Forall (fun c => isspace c = true) ws1 ->
  Forall (fun c => isspace c = true) ws2 ->
  u = 67%N \/ u = 99%N ->
  convert_temperature value (ws1 ++ [u] ++ ws2)
  = format_2f value ++ nnbsp ++ degree ++ lit "C is "
      ++ format_2f (add (div (mul value (of_Z 9)) (of_Z 5)) (of_Z 32))
      ++ nnbsp ++ degree ++ lit "F".
Proof.
  intros H1 H2 Hu. unfold convert_temperature.
  rewrite strip_padded; try assumption.
  - destruct Hu as [-> | ->]; reflexivity.
  - destruct Hu as [-> | ->]; repeat constructor.
Qed.

Lemma convert_temperature_celsius_witness :
  convert_temperature (of_Z 100) (lit "  " ++ [99%N] ++ lit " ")
  = lit "100.00" ++ nnbsp ++ degree ++ lit "C is 212.00" ++ nnbsp ++ degree
      ++ lit "F".
Proof.
  rewrite (@convert_temperature_celsius (of_Z 100) (lit "  ") (lit " ") 99%N);
    [vm_compute; reflexivity | repeat constructor | repeat constructor
    | right; reflexivity].
Defined.

Lemma degree_in_message (a b c d : str) :
  In 176%N (a ++ nnbsp ++ degree ++ b ++ c ++ nnbsp ++ degree ++ d).
Proof.
  apply in_or_app. right. right. left. reflexivity.
Qed.

(** X2. [convert_temperature] answers "Unit must be 'C' or 'F'."
    exactly when the unit, once its surrounding whitespace is taken
    off, is none of C, c, F and f; it does so for every value. *)
Theorem convert_temperature_unit_rejected (value : float) (unit : str) :
  convert_temperature value unit = lit "Unit must be 'C' or 'F'."
  <-> ~ In (strip unit) [lit "C"; lit "c"; lit "F"; lit "f"].
Proof.
  unfold convert_temperature.
  destruct (eqb (upper (strip unit)) (lit "C")) eqn:EC.
  { apply eqb_eq, upper_is_C in EC. split.
    - intros H. exfalso.
      assert (Hin : In 176%N (lit "Unit must be 'C' or 'F'."))
        by (rewrite <- H; apply degree_in_message).
      vm_compute in Hin. intuition discriminate.
    - intros H. exfalso. apply H.
      destruct EC as [E|E]; rewrite E; simpl; auto. }
  destruct (eqb (upper (strip unit)) (lit "F")) eqn:EF.
  { apply eqb_eq, upper_is_F in EF. split.
    - intros H. exfalso.
      assert (Hin : In 176%N (lit "Unit must be 'C' or 'F'."))
        by (rewrite <- H; apply degree_in_message).
      vm_compute in Hin. intuition discriminate.
    - intros H. exfalso. apply H.
      destruct EF as [E|E]; rewrite E; simpl; auto. }
  apply eqb_neq in EC, EF. split; [|reflexivity].
  intros _ [H|[H|[H|[H|[]]]]].
  - apply EC, upper_is_C. left. now symmetry.
  - apply EC, upper_is_C. right. now symmetry.
  - apply EF, upper_is_F. left. now symmetry.
  - apply EF, upper_is_F. right. now symmetry.
Qed.

Lemma convert_temperature_unit_rejected_witness :
  ~ In (strip (lit " K ")) [lit "C"; lit "c"; lit "F"; lit "f"]
  /\ convert_temperature (of_Z 300) (lit " K ")
     = lit "Unit must be 'C' or 'F'.".
Proof.
  assert (H : ~ In (strip (lit " K ")) [lit "C"; lit "c"; lit "F"; lit "f"]).
  { vm_compute. intros [H|[H|[H|[H|[]]]]]; discriminate H. }
  split; [exact H|].
  exact (proj2 (convert_temperature_unit_rejected (of_Z 300) (lit " K ")) H).
Defined.

(** X3. A value that is not a number or is infinite goes through both
    conversions as it is: for each of the two units the message shows
    [nan] or [inf], with its sign, on both sides, each followed by a
    narrow no-break space (U+202F) and the degree sign. *)
Theorem convert_temperature_not_finite (value : float) (unit : str) :
  (value = S754_nan \/ exists s, value = S754_infinity s) ->
  (upper (strip unit) = lit "C" ->
   convert_temperature value unit
   = format_2f value ++ nnbsp ++ degree ++ lit "C is "
       ++ format_2f value ++ nnbsp ++ degree ++ lit "F")
  /\ (upper (strip unit) = lit "F" ->
      convert_temperature value unit
      = format_2f value ++ nnbsp ++ degree ++ lit "F is "
          ++ format_2f value ++ nnbsp ++ degree ++ lit "C").
Proof.
  intros Hv. unfold convert_temperature. split; intros Hu; rewrite Hu.
  - destruct Hv as [-> | [[|] ->]]; reflexivity.
  - destruct Hv as [-> | [[|] ->]]; reflexivity.
Qed.

Lemma convert_temperature_not_finite_witness :
  convert_temperature (S754_infinity true) (lit "f")
  = lit "-inf" ++ nnbsp ++ degree ++ lit "F is -inf" ++ nnbsp ++ degree
      ++ lit "C".
Proof.
  rewrite (proj2 (@convert_temperature_not_finite (S754_infinity true)
                    (lit "f")
                    (or_intror (ex_intro _ true eq_refl))) eq_refl).
  reflexivity.
Defined.

(** ** Counting words *)

Lemma token_starts_spaces (ws s : str) :
  Forall (fun c => isspace c = true) ws ->
  token_starts true (ws ++ s) = token_starts true s.
Proof.
  induction 1 as [|c ws Hc _ IH]; simpl; [reflexivity|].
  now rewrite Hc.
Qed.

Lemma token_starts_joined (a sep b : str) :
  sep <> [] ->
  Forall (fun c => isspace c = true) sep ->
  forall after_space,
  token_starts after_space (a ++ sep ++ b)
  = token_starts after_space a + token_starts true b.
Proof.
  intros Hne Hsep. induction a as [|x a IH]; intros after_space.
  - destruct Hsep as [|c sep Hc Hsep]; [contradiction|].
    simpl. rewrite Hc. now apply token_starts_spaces.
  - simpl. destruct (isspace x); rewrite IH; lia.
Qed.

(** X4. The words of two texts joined by whitespace are those of the
    one and those of the other: [word_count] of the joined text states
    the sum of the two counts. *)
Theorem word_count_joined (a sep b : str) :
  sep <> [] ->
  Forall (fun c => isspace c = true) sep ->
  length (split (a ++ sep ++ b)) = length (split a) + length (split b)
  /\ word_count (a ++ sep ++ b)
     = lit "The text contains "
         ++ str_of_nat (length (split a) + length (split b))
         ++ lit " word"
         ++ (if negb (Nat.eqb (length (split a) + length (split b)) 1)
             then lit "s" else [])
         ++ lit ".".
Proof.
  intros Hne Hsep.
  assert (E : length (split (a ++ sep ++ b))
              = length (split a) + length (split b)).
  { rewrite !split_length. unfold token_count.
    now apply token_starts_joined. }
  split; [exact E|]. unfold word_count. now rewrite E.
Qed.

Lemma word_count_joined_witness :
  word_count (lit "one two" ++ lit "  " ++ lit "three")
  = lit "The text contains 3 words.".
Proof.
  rewrite (proj2 (@word_count_joined (lit "one two") (lit "  ")
                    (lit "three")
                    ltac:(discriminate) ltac:(repeat constructor))).
  vm_compute. reflexivity.
Defined.

(** ** Reading the count back *)

Lemma lit_inj (s t : string) : lit s = lit t -> s = t.
Proof.
  revert t. induction s as [|a s IH]; intros [|b t] H; simpl in H;
    try discriminate; [reflexivity|].
  injection H as Hab Hst. f_equal; [|now apply IH].
  rewrite <- (ascii_N_embedding a), <- (ascii_N_embedding b).
  now rewrite Hab.
Qed.

Lemma to_uint_nonnil (n : N) : N.to_uint n <> Decimal.Nil.
Proof.
  destruct n as [|p]; [discriminate|].
  apply DecimalPos.Unsigned.to_uint_nonnil.
Qed.

Lemma str_of_N_inj (n m : N) : str_of_N n = str_of_N m -> n = m.
Proof.
  unfold str_of_N. intros H. apply lit_inj in H.
  apply (f_equal NilZero.uint_of_string) in H.
  rewrite !NilZero.usu in H by apply to_uint_nonnil.
  injection H as H. now apply DecimalN.Unsigned.to_uint_inj.
Qed.

Lemma digits_of_uint (d : Decimal.uint) :
  Forall is_digit (lit (NilEmpty.string_of_uint d)).
Proof.
  induction d; simpl; constructor; try assumption; unfold is_digit;
    simpl; lia.
Qed.

Lemma str_of_N_digits (n : N) : Forall is_digit (str_of_N n).
Proof.
  unfold str_of_N, NilZero.string_of_uint.
  destruct (N.to_uint n); try apply digits_of_uint.
  repeat constructor; unfold is_digit; simpl; lia.
Qed.

(** Two texts that begin with digits and go on with something else
    agree on the digits when they are equal. *)
Lemma digits_then_other (d1 d2 r1 r2 : str) (x1 x2 : N) :
  Forall is_digit d1 -> Forall is_digit d2 ->
  ~ is_digit x1 -> ~ is_digit x2 ->
  d1 ++ x1 :: r1 = d2 ++ x2 :: r2 -> d1 = d2.
Proof.
  intros H1. revert d2. induction H1 as [|c d1 Hc _ IH];
    intros d2 H2 Hx1 Hx2 E; destruct H2 as [|c' d2 Hc' H2]; simpl in E.
  - reflexivity.
  - injection E as -> _. contradiction.
  - injection E as -> _. contradiction.
  - injection E as -> E. f_equal. now apply IH.
Qed.

Lemma sentence_tail (n : nat) :
  exists r,
    lit " word" ++ (if negb (Nat.eqb n 1) then lit "s" else []) ++ lit "."
    = 32%N :: r.
Proof. destruct (Nat.eqb n 1); eexists; reflexivity. Qed.

Lemma word_count_count_inj (a b : str) :
  word_count a = word_count b -> length (split a) = length (split b).
Proof.
  unfold word_count. intros H. apply app_inv_head in H.
  destruct (sentence_tail (length (split a))) as [ra Ha].
  destruct (sentence_tail (length (split b))) as [rb Hb].
  rewrite Ha, Hb in H.
  apply digits_then_other in H;
    try apply str_of_N_digits; try (unfold is_digit; lia).
  apply str_of_N_inj in H. lia.
Qed.

(** X5. The sentence of [word_count] tells the count: two texts get
    the same sentence exactly when they have the same number of
    words. *)
Theorem word_count_tells_count (a b : str) :
  word_count a = word_count b <-> length (split a) = length (split b).
Proof.
  split; [apply word_count_count_inj|].
  unfold word_count. now intros ->.
Qed.

Lemma word_count_tells_count_witness :
  word_count (lit "a b") = word_count (lit " c   d ")
  /\ length (split (lit "a b")) = length (split (lit " c   d ")).
Proof.
  assert (H : length (split (lit "a b")) = length (split (lit " c   d ")))
    by reflexivity.
  split; [|exact H].
  exact (proj2 (word_count_tells_count (lit "a b") (lit " c   d ")) H).
Defined.

Lemma token_starts_zero (s : str) :
  token_starts true s = 0 -> Forall (fun c => isspace c = true) s.
Proof.
  induction s as [|c r IH]; simpl; [constructor|].
  destruct (isspace c) eqn:E; [|discriminate].
  intros H. constructor; [exact E | now apply IH].
Qed.

(** X6. [word_count] answers "The text contains 0 words." exactly for
    the texts that are empty or made of whitespace only. *)
Theorem word_count_zero (text : str) :
  word_count text = lit "The text contains 0 words."
  <-> Forall (fun c => isspace c = true) text.
Proof.
  split.
  - intros H. apply token_starts_zero.
    change (lit "The text contains 0 words.") with (word_count []) in H.
    apply word_count_count_inj in H. now rewrite split_length in H.
  - intros H. unfold word_count. rewrite split_length. unfold token_count.
    now rewrite token_starts_blank.
Qed.

Lemma word_count_zero_witness :
  Forall (fun c => isspace c = true) (lit "   ")
  /\ word_count (lit "   ") = lit "The text contains 0 words.".
Proof.
  assert (H : Forall (fun c => isspace c = true) (lit "   "))
    by repeat constructor.
  split; [exact H|].
  exact (proj2 (word_count_zero (lit "   ")) H).
Defined.

End MoreOnTools.

(* ===================================================================== *)
(** * More on the client *)
(* ===================================================================== *)

Section MoreOnClient.

Variable env : Env.

(** ** A query that gets no first completion *)

Lemma process_query_lists_self (query : str) (self : MCPClient)
    (h : History) :
  self_after (process_query_lists env query self h) = self.
Proof.
  pose proof (process_query_lists_cases env query self h) as Hc.
  cbv zeta in Hc.
  destruct (session self) as [s|].
  2:{ destruct Hc as [e Hc]. now rewrite Hc. }
  destruct (list_tools_reply env h) as [e|ts]; [now rewrite Hc|].
  match type of Hc with context [create_reply env ?hh ?rq] =>
    destruct (create_reply env hh rq) as [e|resp] end; [now rewrite Hc|].
  destruct (choices resp) as [|m ms].
  { destruct Hc as [e Hc]. now rewrite Hc. }
  rewrite Hc. unfold self_after at 1. simpl.
  match goal with |- context [tool_call_loop env ?c ?ms0 ?ft ?sf ?hh] =>
    destruct (tool_call_loop_shape env c ms0 ft sf hh)
      as (rounds & tail & _ & Hself & _)
  end.
  exact Hself.
Qed.

Lemma process_query_self (query : str) (self : MCPClient) (h : History) :
  self_after (process_query env query self h) = self.
Proof.
  rewrite process_query_run. apply process_query_lists_self.
Qed.

Lemma process_query_lists_no_session (query : str) (self : MCPClient)
    (h : History) :
  session self = None ->
  process_query_lists env query self h
  = (inl (AttributeError
            (lit "'NoneType' object has no attribute 'list_tools'")),
     self, []).
Proof.
  intros Es. unfold process_query_lists, list_tools.
  rewrite run_bind_assoc, run_bind_the_session, Es. reflexivity.
Qed.

Lemma process_query_lists_no_choice (query : str) (self : MCPClient)
    (h : History) (s : StdioServerParameters) (ts : list Tool)
    (resp : ChatCompletion) :
  let req :=
    first_request self [user_message query] (map tool_declaration ts) in
  session self = Some s ->
  list_tools_reply env h = inr ts ->
  create_reply env (h ++ [EvListTools (inr ts)]) req = inr resp ->
  choices resp = [] ->
  process_query_lists env query self h
  = (inl (IndexError (lit "list index out of range")), self,
     [EvListTools (inr ts); EvCreate req (inr resp)]).
Proof.
  cbv zeta. intros Es El Ec Ech. unfold process_query_lists, list_tools.
  rewrite run_bind_assoc, run_bind_the_session, Es, run_bind_call, El.
  cbv zeta. rewrite !run_bind_get_self. unfold create.
  rewrite !run_bind_call, Ec. cbv zeta. unfold first_message.
  rewrite Ech, !run_bind_raise. reflexivity.
Qed.

(** X7. A query that gets no first completion message raises and
    stops there: before [connect_to_server] has set the session it
    raises [AttributeError] with nothing sent; when [list_tools] raises
    it raises the same with no completion request; when the first
    [create] raises it raises the same; when the completion has no
    choice it raises [IndexError].  In all four cases no tool is
    invoked and at most one request is made. *)
Theorem process_query_without_completion
    (query : str) (self : MCPClient) (h : History) :
  let run := process_query env query self h in
  first_completion_message (events run) = None ->
  invoked (events run) = []
  /\ length (requests (events run)) <= 1
  /\ exists e,
       outcome run = inl e
       /\ ((session self = None
            /\ e = AttributeError
                     (lit "'NoneType' object has no attribute 'list_tools'")
            /\ events run = [])
           \/ events run = [EvListTools (inl e)]
           \/ (exists ts req,
                 events run = [EvListTools (inr ts); EvCreate req (inl e)])
           \/ (exists ts req resp,
                 choices resp = []
                 /\ e = IndexError (lit "list index out of range")
                 /\ events run
                    = [EvListTools (inr ts); EvCreate req (inr resp)])).
Proof.
  cbv zeta. rewrite process_query_run. cbv zeta.
  unfold events at 1 2 3 4 5 6 7, outcome at 1. simpl fst. simpl snd.
  intros Hnone.
  pose proof (process_query_lists_cases env query self h) as Hc.
  cbv zeta in Hc.
  destruct (session self) as [s|] eqn:Es.
  2:{ rewrite (process_query_lists_no_session query self h Es). simpl.
      conjs; [reflexivity | lia |]. eexists. split; [reflexivity|].
      left. conjs; reflexivity. }
  destruct (list_tools_reply env h) as [e|ts] eqn:El.
  { rewrite Hc. simpl. conjs; [reflexivity | lia |].
    exists e. split; [reflexivity|]. right. left. reflexivity. }
  match type of Hc with context [create_reply env ?hh ?rq] =>
    destruct (create_reply env hh rq) as [e|resp] eqn:Ec end.
  { rewrite Hc. simpl. conjs; [reflexivity | lia |].
    exists e. split; [reflexivity|]. right. right. left. eauto. }
  destruct (choices resp) as [|m ms] eqn:Ech.
  2:{ rewrite Hc in Hnone. simpl in Hnone. rewrite Ech in Hnone.
      discriminate Hnone. }
  rewrite (process_query_lists_no_choice query self h Es El Ec Ech).
  simpl. conjs; [reflexivity | lia |].
  eexists. split; [reflexivity|]. right. right. right.
  eexists ts, _, resp. conjs; [exact Ech | reflexivity | reflexivity].
Qed.

(** ** The text that a query returns *)

Lemma append_content_app (ft : list str) (m : ChatCompletionMessage) :
  append_content ft m = ft ++ append_content [] m.
Proof.
  unfold append_content. destruct (truthy (cm_content m));
    [|now rewrite app_nil_r].
  destruct (cm_content m); [reflexivity | now rewrite app_nil_r].
Qed.

Lemma tool_call_loop_cons (tc : ToolCall) (rest : list ToolCall)
    (msgs : list Message) (ft : list str) :
  tool_call_loop env (tc :: rest) msgs ft
  = (tool_args <- lift (json_loads env (fn_arguments (tc_function tc))) ;;
     tool_response <- call_tool env (fn_name (tc_function tc)) tool_args ;;
     self <- get_self ;;
     response <-
       create env
         (follow_up_request self
            (msgs ++ [assistant_message tc]
               ++ [tool_message tc (str_result env tool_response)])) ;;
     follow_up <- first_message response ;;
     tool_call_loop env rest
       (msgs ++ [assistant_message tc]
          ++ [tool_message tc (str_result env tool_response)])
       (append_content
          (ft ++ [lit "[Tool " ++ fn_name (tc_function tc)
                    ++ lit " called with args " ++ repr_json env tool_args
                    ++ lit "]"]
              ++ [str_result env tool_response])
          follow_up)).
Proof. reflexivity. Qed.

Lemma tool_call_loop_returns (calls : list ToolCall) :
  forall msgs ft self h lists,
  outcome (tool_call_loop env calls msgs ft self h) = inr lists ->
  exists rounds,
    events (tool_call_loop env calls msgs ft self h)
    = rounds_trace env self msgs rounds
    /\ map round_call rounds = calls
    /\ snd lists = ft ++ flat_map (round_lines env) rounds.
Proof.
  induction calls as [|tc rest IH]; intros msgs ft self h lists.
  - simpl. intros [= <-]. exists []. simpl. now rewrite app_nil_r.
  - rewrite tool_call_loop_cons, run_bind_lift.
    destruct (json_loads env (fn_arguments (tc_function tc))) as [e|a];
      [discriminate|].
    unfold call_tool. rewrite run_bind_assoc, run_bind_the_session.
    destruct (session self) as [s|]; [|discriminate].
    rewrite run_bind_call.
    destruct (call_tool_reply env h (fn_name (tc_function tc)) a)
      as [e|res]; [discriminate|].
    cbv zeta. rewrite !run_bind_get_self. unfold create.
    rewrite !run_bind_call.
    match goal with |- context [create_reply env ?hh ?rq] =>
      destruct (create_reply env hh rq) as [e|resp] eqn:Er end;
      [discriminate|].
    cbv zeta. unfold first_message.
    destruct (choices resp) as [|m ms] eqn:Ech.
    { rewrite !run_bind_raise. discriminate. }
    rewrite !run_bind_ret.
    match goal with |- context [tool_call_loop env rest ?a ?b ?c ?d] =>
      pose proof (IH a b c d lists) as IHnext;
      set (next := tool_call_loop env rest a b c d) in *
    end.
    unfold outcome at 1 2, events at 1 2. simpl fst. simpl snd.
    intros Ho. apply IHnext in Ho.
    destruct Ho as (rounds & Hev & Hcalls & Htext).
    exists ({| round_call := tc; round_args := a; round_result := res;
               round_reply := inr resp |} :: rounds).
    conjs.
    + cbn [events outcome self_after fst snd rounds_trace].
      f_equal. f_equal. exact Hev.
    + simpl. now rewrite Hcalls.
    + rewrite Htext, append_content_app. simpl flat_map.
      unfold round_lines at 2. simpl round_reply. rewrite Ech.
      simpl round_call. simpl round_args. simpl round_result.
      rewrite <- !app_assoc. reflexivity.
Qed.

(** X8. When [process_query] returns, its text is the lines of
    [final_text] joined by line feeds: the content of the first
    completion if it has one, then for each tool call, in list order,
    the line "[Tool <name> called with args <arguments>]", the result
    as a string, and the content of the completion that followed that
    call if it has one. *)
Theorem process_query_text
    (query : str) (self : MCPClient) (h : History) (text : str) :
  let run := process_query env query self h in
  outcome run = inr text ->
  exists ts resp m rounds,
    hd_error (choices resp) = Some m
    /\ map round_call rounds = pending_calls m
    /\ events run
       = EvListTools (inr ts)
           :: EvCreate (first_request self [user_message query]
                          (map tool_declaration ts)) (inr resp)
           :: rounds_trace env self [user_message query] rounds
    /\ text
       = join newline
           (append_content [] m ++ flat_map (round_lines env) rounds).
Proof.
  cbv zeta. rewrite process_query_run. cbv zeta.
  unfold outcome at 1, events at 1. simpl fst. simpl snd.
  pose proof (process_query_lists_cases env query self h) as Hc.
  cbv zeta in Hc.
  destruct (session self) as [s|].
  2:{ destruct Hc as [e Hc]. rewrite Hc. discriminate. }
  destruct (list_tools_reply env h) as [e|ts]; [rewrite Hc; discriminate|].
  match type of Hc with context [create_reply env ?hh ?rq] =>
    destruct (create_reply env hh rq) as [e|resp] end;
    [rewrite Hc; discriminate|].
  destruct (choices resp) as [|m ms] eqn:Ech.
  { destruct Hc as [e Hc]. rewrite Hc. discriminate. }
  rewrite Hc. unfold outcome at 1, events at 1. simpl fst. simpl snd.
  match goal with |- context [tool_call_loop env ?c ?ms0 ?ft ?sf ?hh] =>
    destruct (outcome (tool_call_loop env c ms0 ft sf hh))
      as [e|lists] eqn:Ho
  end; [discriminate|].
  intros [= <-].
  apply tool_call_loop_returns in Ho.
  destruct Ho as (rounds & Hev & Hcalls & Htext).
  exists ts, resp, m, rounds. rewrite Ech, Hev, Htext.
  conjs; reflexivity || assumption.
Qed.

(** ** The order of the invocations *)

Lemma firstn_succ_nth {A} (l : list A) :
  forall n x, nth_error l n = Some x -> firstn (S n) l = firstn n l ++ [x].
Proof.
  induction l as [|y l IH]; intros [|n] x H; simpl in H; try discriminate.
  - now injection H as ->.
  - simpl. f_equal. now apply IH.
Qed.

Lemma rounds_invoked (rounds : list Round) :
  Forall (decoded env) rounds ->
  Forall2
    (fun tc na =>
       fst na = fn_name (tc_function tc)
       /\ json_loads env (fn_arguments (tc_function tc)) = inr (snd na))
    (map round_call rounds)
    (map (fun r => (fn_name (tc_function (round_call r)), round_args r))
         rounds).
Proof.
  induction 1 as [|r rounds Hr _ IH]; simpl; constructor; [|exact IH].
  split; [reflexivity | exact Hr].
Qed.

(** X9. In a run whose first completion came back, whether it returns
    or raises, the tools that were invoked are those of a first part
    of the list of tool calls, in list order, each one under the name
    of its call and with the arguments that [json.loads] decoded from
    the argument text of that call. *)
Theorem process_query_invokes_in_order
    (query : str) (self : MCPClient) (h : History)
    (m : ChatCompletionMessage) :
  let run := process_query env query self h in
  let calls := pending_calls m in
  let done := invoked (events run) in
  first_completion_message (events run) = Some m ->
  length done <= length calls
  /\ Forall2
       (fun tc na =>
          fst na = fn_name (tc_function tc)
          /\ json_loads env (fn_arguments (tc_function tc)) = inr (snd na))
       (firstn (length done) calls) done.
Proof.
  cbv zeta. rewrite process_query_events. intros Hfirst.
  destruct (process_query_lists_shape env query self h Hfirst)
    as (ts & resp & rounds & tail & _ & _ & Hev & _ & Hcalls & Hdec
        & Htail & _).
  pose proof (rounds_within _ _ Hcalls) as Hle.
  rewrite Hev. simpl invoked. rewrite invoked_app, invoked_rounds_trace.
  destruct Htail as [->|(e & (tc & a & Hn & Hj & ->) & _)]; simpl invoked.
  - rewrite app_nil_r, length_map. split; [exact Hle|].
    rewrite <- Hcalls. now apply rounds_invoked.
  - rewrite length_app, length_map. simpl length.
    assert (Hlt : length rounds < length (pending_calls m)).
    { apply nth_error_Some. now rewrite Hn. }
    split; [lia|].
    rewrite Nat.add_1_r, (firstn_succ_nth _ _ Hn), <- Hcalls.
    apply Forall2_app; [now apply rounds_invoked|].
    constructor; [|constructor]. split; [reflexivity | exact Hj].
Qed.

(** ** One turn of the chat loop *)

Lemma run_bind_value {A B} (m : M A) (f : A -> M B) self h a self1 evs :
  m self h = (inr a, self1, evs) ->
  bind m f self h
  = (outcome (f a self1 (h ++ evs)), self_after (f a self1 (h ++ evs)),
     evs ++ events (f a self1 (h ++ evs))).
Proof.
  intros H. unfold bind. rewrite H.
  now destruct (f a self1 (h ++ evs)) as [[r s2] evs2].
Qed.

Lemma run_bind_raises {A B} (m : M A) (f : A -> M B) self h e self1 evs :
  m self h = (inl e, self1, evs) ->
  bind m f self h = (inl e, self1, evs).
Proof. intros H. unfold bind. now rewrite H. Qed.

Lemma run_print_ret {A} (text : str) (a : A) self h :
  (print env text ;;; ret a) self h
  = (match print_reply env h text with
     | inl e => inl e
     | inr _ => inr a
     end, self, [EvPrint text]).
Proof.
  unfold print. rewrite run_bind_attempt.
  destruct (print_reply env h text); reflexivity.
Qed.

Lemma run_try_except {A} (m : M A) (handler : Exception -> M A) self h :
  try_except m handler self h
  = match outcome (m self h) with
    | inr _ => m self h
    | inl e =>
        if is_Exception e then
          let next :=
            handler e (self_after (m self h)) (h ++ events (m self h)) in
          (outcome next, self_after next, events (m self h) ++ events next)
        else m self h
    end.
Proof.
  unfold try_except, outcome, self_after, events.
  destruct (m self h) as [[[e|a] s1] evs1]; simpl; [|reflexivity].
  destruct (is_Exception e); [|reflexivity].
  now destruct (handler e s1 (h ++ evs1)) as [[r s2] evs2].
Qed.

Lemma chat_turn_cases (self : MCPClient) (h : History) :
  let turn := chat_turn env self h in
  match input_reply env h prompt with
  | inl e =>
      let ev := EvInput prompt (inl e) in
      if is_Exception e then
        turn = (report env e (h ++ [ev]), self,
                [ev; EvPrint (error_line env e)])
      else turn = (inl e, self, [ev])
  | inr line =>
      let ev := EvInput prompt (inr line) in
      if eqb (lower (strip line)) (lit "quit") then
        turn = (inr true, self, [ev])
      else
        let q := process_query env (strip line) self (h ++ [ev]) in
        match outcome q with
        | inr text =>
            let shown := EvPrint (newline ++ text) in
            match print_reply env (h ++ ev :: events q) (newline ++ text) with
            | inr _ => turn = (inr false, self, ev :: events q ++ [shown])
            | inl e =>
                if is_Exception e then
                  turn = (report env e (h ++ ev :: events q ++ [shown]),
                          self,
                          ev :: events q
                            ++ [shown; EvPrint (error_line env e)])
                else turn = (inl e, self, ev :: events q ++ [shown])
            end
        | inl e =>
            if is_Exception e then
              turn = (report env e (h ++ ev :: events q), self,
                      ev :: events q ++ [EvPrint (error_line env e)])
            else turn = (inl e, self, ev :: events q)
        end
  end.
Proof.
  cbv zeta. unfold chat_turn. fold prompt. rewrite run_try_except.
  cbv zeta. rewrite run_bind_call.
  destruct (input_reply env h prompt) as [e|line].
  { cbn [outcome self_after events fst snd].
    destruct (is_Exception e); [|reflexivity].
    rewrite run_print_ret. reflexivity. }
  cbv zeta.
  destruct (eqb (lower (strip line)) (lit "quit")); [reflexivity|].
  pose proof (process_query_self (strip line) self
                (h ++ [EvInput prompt (inr line)])) as Hself.
  pose proof (run_surjective
                (process_query env (strip line) self
                   (h ++ [EvInput prompt (inr line)]))) as Hq.
  set (q := process_query env (strip line) self
              (h ++ [EvInput prompt (inr line)])) in *.
  rewrite Hself in Hq.
  destruct (outcome q) as [e|text] eqn:Ho.
  - rewrite !(@run_bind_raises _ _ (process_query env (strip line)) _ self
                (h ++ [EvInput prompt (inr line)]) _ _ _ Hq).
    cbn [outcome self_after events fst snd].
    destruct (is_Exception e); [|reflexivity].
    rewrite run_print_ret. cbn [outcome self_after events fst snd].
    reflexivity.
  - rewrite !(@run_bind_value _ _ (process_query env (strip line)) _ self
                (h ++ [EvInput prompt (inr line)]) _ _ _ Hq), !run_print_ret.
    cbn [outcome self_after events fst snd].
    rewrite <- !app_assoc.
    change ([EvInput prompt (inr line)] ++ events q)
      with (EvInput prompt (inr line) :: events q).
    destruct (print_reply env (h ++ EvInput prompt (inr line) :: events q)
                (newline ++ text)) as [e|u]; [|reflexivity].
    destruct (is_Exception e); [|reflexivity].
    rewrite run_print_ret. cbn [outcome self_after events fst snd].
    unfold report, error_line.
    replace ((EvInput prompt (inr line)
                :: events q ++ [EvPrint (newline ++ text)]) ++
             [EvPrint (newline ++ [10060%N] ++ lit " Error: "
                         ++ str_exception env e)])
      with (EvInput prompt (inr line)
              :: events q
                   ++ [EvPrint (newline ++ text);
                       EvPrint (newline ++ [10060%N] ++ lit " Error: "
                                  ++ str_exception env e)]);
      [reflexivity|].
    change (?x :: ?l ++ [?a; ?b]) with (x :: l ++ [a] ++ [b]).
    now rewrite app_assoc.
Qed.

(** X10. A line that is not [quit] is answered after the events of
    its query: by the text that [process_query] returned, and nothing
    else when that text could be printed; by the error line of the
    exception when [process_query], or the printing of the text,
    raised an [Exception].  The turn then goes on, unless printing the
    error line raises, which the turn raises in its turn; what is not
    an [Exception] is raised as it is. *)
Theorem chat_turn_answers
    (self : MCPClient) (h : History) (line : str) :
  let turn := chat_turn env self h in
  let ev := EvInput prompt (inr line) in
  let q := process_query env (strip line) self (h ++ [ev]) in
  input_reply env h prompt = inr line ->
  eqb (lower (strip line)) (lit "quit") = false ->
  match outcome q with
  | inr text =>
      let shown := EvPrint (newline ++ text) in
      match print_reply env (h ++ ev :: events q) (newline ++ text) with
      | inr _ => turn = (inr false, self, ev :: events q ++ [shown])
      | inl e =>
          if is_Exception e then
            turn = (report env e (h ++ ev :: events q ++ [shown]), self,
                    ev :: events q ++ [shown; EvPrint (error_line env e)])
          else turn = (inl e, self, ev :: events q ++ [shown])
      end
  | inl e =>
      if is_Exception e then
        turn = (report env e (h ++ ev :: events q), self,
                ev :: events q ++ [EvPrint (error_line env e)])
      else turn = (inl e, self, ev :: events q)
  end.
Proof.
  cbv zeta. intros Hin Hquit.
  pose proof (chat_turn_cases self h) as Hc. cbv zeta in Hc.
  rewrite Hin, Hquit in Hc. exact Hc.
Qed.

Ltac turn_cases Hc :=
  repeat match type of Hc with
         | match ?x with inl _ => _ | inr _ => _ end => destruct x eqn:?
         | if ?x then _ else _ => destruct x eqn:?
         end.

Lemma chat_turn_self (self : MCPClient) (h : History) :
  self_after (chat_turn env self h) = self.
Proof.
  pose proof (chat_turn_cases self h) as Hc. cbv zeta in Hc.
  turn_cases Hc; now rewrite Hc.
Qed.

(** The two lines that [chat_loop] prints before its first turn. *)
Lemma chat_loop_cases (turns : nat) (self : MCPClient) (h : History) :
  let started := newline ++ [129302%N] ++ lit " MCP Client Started!" in
  let hint := lit "Type your query or 'quit' to exit." in
  let loop := chat_loop env turns self h in
  match print_reply env h started with
  | inl e => loop = (inl e, self, [EvPrint started])
  | inr _ =>
      match print_reply env (h ++ [EvPrint started]) hint with
      | inl e => loop = (inl e, self, [EvPrint started; EvPrint hint])
      | inr _ =>
          let rest :=
            chat_turns env turns self
              (h ++ [EvPrint started; EvPrint hint]) in
          loop = (outcome rest, self_after rest,
                  EvPrint started :: EvPrint hint :: events rest)
      end
  end.
Proof.
  cbv zeta. unfold chat_loop, print. rewrite run_bind_attempt.
  match goal with |- context [print_reply env h ?t] =>
    destruct (print_reply env h t) as [e|u] end; [reflexivity|].
  cbv zeta. rewrite run_bind_attempt.
  match goal with |- context [print_reply env ?hh ?t] =>
    destruct (print_reply env hh t) as [e|u'] end; [reflexivity|].
  cbv zeta. cbn [outcome self_after events fst snd].
  rewrite <- app_assoc. reflexivity.
Qed.

Lemma run_bind_self {A B} (m : M A) (f : A -> M B) self h :
  self_after (bind m f self h)
  = match outcome (m self h) with
    | inl _ => self_after (m self h)
    | inr a =>
        self_after (f a (self_after (m self h)) (h ++ events (m self h)))
    end.
Proof.
  unfold bind, events, outcome, self_after.
  destruct (m self h) as [[[e|a] s1] evs1]; simpl; [reflexivity|].
  now destruct (f a s1 (h ++ evs1)) as [[r s2] evs2].
Qed.

Lemma chat_turns_self (turns : nat) :
  forall self h, self_after (chat_turns env turns self h) = self.
Proof.
  induction turns as [|n IH]; intros self h; [reflexivity|].
  simpl chat_turns. rewrite run_bind_self, chat_turn_self.
  destruct (outcome (chat_turn env self h)) as [e|[|]];
    [reflexivity | reflexivity | apply IH].
Qed.

(** X11. Neither a query nor the chat loop changes the client: after
    [process_query], and after [chat_loop] however many turns it ran
    and however they ended, the session, the transport and the
    deployment of [self] are what they were. *)
Theorem client_unchanged :
  (forall query self h, self_after (process_query env query self h) = self)
  /\ (forall turns self h, self_after (chat_loop env turns self h) = self).
Proof.
  split; [apply process_query_self|].
  intros turns self h.
  pose proof (chat_loop_cases turns self h) as Hc. cbv zeta in Hc.
  turn_cases Hc; rewrite Hc; [reflexivity | reflexivity |].
  apply chat_turns_self.
Qed.

(** ** The loop at the end of the input, and at [quit] *)

Lemma chat_turns_succ (n : nat) (self : MCPClient) (h : History)
    (stop : bool) (evs : list Event) :
  chat_turn env self h = (inr stop, self, evs) ->
  chat_turns env (S n) self h
  = if stop then (inr true, self, evs)
    else (outcome (chat_turns env n self (h ++ evs)),
          self_after (chat_turns env n self (h ++ evs)),
          evs ++ events (chat_turns env n self (h ++ evs))).
Proof.
  intros H. simpl chat_turns.
  rewrite (@run_bind_value _ _ (chat_turn env) _ self h _ _ _ H).
  destruct stop; [|reflexivity].
  cbn [ret outcome self_after events fst snd]. now rewrite app_nil_r.
Qed.

(** X12. The loop does not end when the input does.  When every
    [input()] raises one and the same [Exception], as it does with
    [EOFError] once the input is at its end, every turn reads and
    prints the error line.  As long as the console takes that line the
    loop goes on: after any number of turns it has not ended and has
    made no request.  The one way out is the console: when printing
    the error line raises, in a turn, the loop ends there and raises
    what [print] raised. *)
Theorem chat_loop_spins_at_end_of_input
    (e : Exception) (turns : nat) (self : MCPClient) (h : History) :
  (forall h', input_reply env h' prompt = inl e) ->
  is_Exception e = true ->
  ((forall h', print_reply env h' (error_line env e) = inr tt) ->
   chat_turns env turns self h
   = (inr false, self,
      concat (repeat [EvInput prompt (inl e); EvPrint (error_line env e)]
                turns)))
  /\ (forall e',
        print_reply env (h ++ [EvInput prompt (inl e)]) (error_line env e)
        = inl e' ->
        chat_turns env (S turns) self h
        = (inl e', self,
           [EvInput prompt (inl e); EvPrint (error_line env e)])).
Proof.
  intros Hin Hexc. split.
  - intros Hout. revert h. induction turns as [|n IH]; intros h;
      [reflexivity|].
    pose proof (chat_turn_cases self h) as Hc. cbv zeta in Hc.
    rewrite Hin, Hexc in Hc. unfold report in Hc. rewrite Hout in Hc.
    rewrite (@chat_turns_succ n self h false _ Hc), IH. reflexivity.
  - intros e' Hout.
    pose proof (chat_turn_cases self h) as Hc. cbv zeta in Hc.
    rewrite Hin, Hexc in Hc. unfold report in Hc. rewrite Hout in Hc.
    simpl chat_turns.
    now rewrite (@run_bind_raises _ _ (chat_turn env) _ self h _ _ _ Hc).
Qed.

Lemma lower_is_quit (w : str) :
  lower w = lit "quit" -> Forall (fun c => isspace c = false) w.
Proof.
  destruct w as [|a [|b [|c [|d [|x r]]]]]; try discriminate.
  simpl. unfold lower_char. intros [= Ha Hb Hc Hd].
  repeat constructor.
  - destruct (N.leb_spec 65 a), (N.leb_spec a 90); simpl in Ha;
      try (subst a; reflexivity).
    assert (a = 81%N) by lia. now subst a.
  - destruct (N.leb_spec 65 b), (N.leb_spec b 90); simpl in Hb;
      try (subst b; reflexivity).
    assert (b = 85%N) by lia. now subst b.
  - destruct (N.leb_spec 65 c), (N.leb_spec c 90); simpl in Hc;
      try (subst c; reflexivity).
    assert (c = 73%N) by lia. now subst c.
  - destruct (N.leb_spec 65 d), (N.leb_spec d 90); simpl in Hd;
      try (subst d; reflexivity).
    assert (d = 84%N) by lia. now subst d.
Qed.

(** X13. A line that is [quit] in any mix of upper and lower case,
    with any whitespace around it, ends the loop at once: the turn
    that reads it makes no request and prints nothing, and no turn
    follows it. *)
Theorem chat_loop_quit
    (ws1 w ws2 : str) (turns : nat) (self : MCPClient) (h : History) :
  Forall (fun c => isspace c = true) ws1 ->
  Forall (fun c => isspace c = true) ws2 ->
  lower w = lit "quit" ->
  input_reply env h prompt = inr (ws1 ++ w ++ ws2) ->
  chat_turns env (S turns) self h
  = (inr true, self, [EvInput prompt (inr (ws1 ++ w ++ ws2))]).
Proof.
  intros H1 H2 Hw Hin.
  pose proof (chat_turn_cases self h) as Hc. cbv zeta in Hc.
  rewrite Hin, strip_padded, Hw, eqb_refl in Hc;
    try assumption; [|now apply lower_is_quit].
  now rewrite (@chat_turns_succ turns self h true _ Hc).
Qed.

(** ** [main] *)

(** X14. Without a path on the command line [main] prints the usage
    line and exits with code 1, or raises what printing that line
    raised: it builds no client, connects to nothing, reads nothing
    and closes nothing. *)
Theorem main_usage
    (argv : list str) (turns : nat) (self : MCPClient) (h : History) :
  let usage := lit "Usage: python client.py <path_to_server_script>" in
  length argv < 2 ->
  main env argv turns self h
  = (match print_reply env h usage with
     | inl e => inl e
     | inr _ => inl (SystemExit 1)
     end, self, [EvPrint usage]).
Proof.
  cbv zeta.
  destruct argv as [|prog [|path rest]]; simpl length; intros Hlen;
    try lia; unfold main, print; rewrite run_bind_attempt;
    match goal with |- context [print_reply env h ?t] =>
      destruct (print_reply env h t) as [e|u] end; reflexivity.
Qed.

Lemma closes_app (a b : list Event) :
  closes (a ++ b) = closes a + closes b.
Proof.
  induction a as [|e a IH]; simpl; [reflexivity|].
  destruct e; simpl; rewrite ?IH; reflexivity.
Qed.

Lemma closes_rounds_trace self (rounds : list Round) :
  forall msgs, closes (rounds_trace env self msgs rounds) = 0.
Proof.
  induction rounds as [|r rest IH]; intros msgs; simpl; [reflexivity|].
  apply IH.
Qed.

Lemma closes_process_query (query : str) (self : MCPClient) (h : History) :
  closes (events (process_query env query self h)) = 0.
Proof.
  rewrite process_query_events.
  pose proof (process_query_lists_cases env query self h) as Hc.
  cbv zeta in Hc.
  destruct (session self) as [s|].
  2:{ destruct Hc as [e Hc]. now rewrite Hc. }
  destruct (list_tools_reply env h) as [e|ts]; [now rewrite Hc|].
  match type of Hc with context [create_reply env ?hh ?rq] =>
    destruct (create_reply env hh rq) as [e|resp] end; [now rewrite Hc|].
  destruct (choices resp) as [|m ms].
  { destruct Hc as [e Hc]. now rewrite Hc. }
  rewrite Hc. unfold events at 1. simpl.
  match goal with |- context [tool_call_loop env ?c ?ms0 ?ft ?sf ?hh] =>
    destruct (tool_call_loop_shape env c ms0 ft sf hh)
      as (rounds & tail & Hev & _ & _ & _ & Htail & _)
  end.
  rewrite Hev, closes_app, closes_rounds_trace.
  destruct Htail as [->|(e & (tc & a & _ & _ & ->) & _)]; reflexivity.
Qed.

Lemma closes_chat_turn (self : MCPClient) (h : History) :
  closes (events (chat_turn env self h)) = 0.
Proof.
  pose proof (chat_turn_cases self h) as Hc. cbv zeta in Hc.
  destruct (input_reply env h prompt) as [e|line].
  { destruct (is_Exception e); now rewrite Hc. }
  destruct (eqb (lower (strip line)) (lit "quit")); [now rewrite Hc|].
  pose proof (closes_process_query (strip line) self
                (h ++ [EvInput prompt (inr line)])) as Hq.
  turn_cases Hc; rewrite Hc; unfold events at 1; cbn [snd closes];
    rewrite ?closes_app, Hq; reflexivity.
Qed.

Lemma closes_chat_turns (turns : nat) :
  forall self h, closes (events (chat_turns env turns self h)) = 0.
Proof.
  induction turns as [|n IH]; intros self h; [reflexivity|].
  simpl chat_turns. rewrite run_bind_events, closes_app, closes_chat_turn.
  destruct (outcome (chat_turn env self h)) as [e|[|]];
    [reflexivity | reflexivity | apply IH].
Qed.

Lemma closes_chat_loop (turns : nat) (self : MCPClient) (h : History) :
  closes (events (chat_loop env turns self h)) = 0.
Proof.
  pose proof (chat_loop_cases turns self h) as Hc. cbv zeta in Hc.
  turn_cases Hc; rewrite Hc; [reflexivity | reflexivity |].
  unfold events at 1. cbn [snd closes]. apply closes_chat_turns.
Qed.

Lemma closes_connect (path : str) (self : MCPClient) (h : History) :
  closes (events (connect_to_server env path self h)) = 0.
Proof.
  destruct (endswith path (lit ".py") || endswith path (lit ".js")) eqn:Hsup.
  2:{ apply orb_false_elim in Hsup. destruct Hsup as [Hpy Hjs].
      unfold connect_to_server. now rewrite Hpy, Hjs. }
  pose proof (connect_to_server_cases env path self h Hsup) as Hc.
  cbv zeta in Hc.
  repeat match type of Hc with
         | match ?x with inl _ => _ | inr _ => _ end =>
             destruct x; [now rewrite Hc|]
         end.
  now rewrite Hc.
Qed.

(** X15. With a path on the command line [main] first builds the
    client.  When the constructor raises, [main] raises the same
    exception and closes nothing: no client is there to clean up.
    Otherwise a run of [main] that has ended closes the exit stack
    exactly once, as its last event, on every way out; it raises what
    the closing raised, if it did.  When [connect_to_server] raises,
    the chat loop never starts: the events between the constructor
    and the closing are those of the connection, and [main] raises
    the same exception after a closing that did not raise. *)
Theorem main_cleans_up
    (prog path : str) (rest : list str) (turns : nat)
    (self : MCPClient) (h : History) :
  let run := main env (prog :: path :: rest) turns self h in
  let built := EvAzureOpenAI (azure_openai_reply env h) in
  let client := init (getenv_deployment env) in
  let connect := connect_to_server env path client (h ++ [built]) in
  outcome run <> inr false ->
  match azure_openai_reply env h with
  | inl e => run = (inl e, init None, [built])
  | inr _ =>
      exists evs,
        events run = built :: evs ++ [EvAclose]
        /\ closes evs = 0
        /\ closes (events run) = 1
        /\ (forall e, aclose_reply env (h ++ built :: evs) = inl e ->
              outcome run = inl e)
        /\ (forall e, outcome connect = inl e ->
              evs = events connect
              /\ (aclose_reply env (h ++ built :: evs) = inr tt ->
                  outcome run = inl e))
  end.
Proof.
  cbv zeta. intros _. unfold main, new_client.
  rewrite run_bind_assoc, run_bind_set_self. cbv beta.
  rewrite run_bind_assoc, run_bind_call.
  destruct (azure_openai_reply env h) as [e|u]; [reflexivity|].
  cbv zeta. rewrite run_bind_set_self.
  unfold try_finally, cleanup, attempt.
  set (client := init (getenv_deployment env)).
  set (h1 := h ++ [EvAzureOpenAI (inr u)]).
  set (body := (connect_to_server env path ;;; chat_loop env turns)
                 client h1).
  assert (Hbody : closes (events body) = 0).
  { unfold body. rewrite run_bind_events, closes_app, closes_connect.
    destruct (outcome (connect_to_server env path client h1));
      [reflexivity|].
    apply closes_chat_loop. }
  assert (Hraise : forall e,
             outcome (connect_to_server env path client h1) = inl e ->
             outcome body = inl e
             /\ events body = events (connect_to_server env path client h1)).
  { intros e He. unfold body.
    pose proof (run_surjective (connect_to_server env path client h1))
      as Hs.
    rewrite He in Hs.
    rewrite (@run_bind_raises _ _ (connect_to_server env path) _ client h1
               _ _ _ Hs).
    now split. }
  destruct body as [[o s1] evs1]. cbn [outcome events fst snd] in *.
  assert (Hh : h1 ++ evs1 = h ++ EvAzureOpenAI (inr u) :: evs1).
  { unfold h1. now rewrite <- app_assoc. }
  rewrite Hh. exists evs1.
  destruct (aclose_reply env (h ++ EvAzureOpenAI (inr u) :: evs1))
    as [e'|[]]; cbn [outcome events fst snd]; conjs;
    try reflexivity; try exact Hbody;
    try (cbn [closes]; rewrite closes_app, Hbody; reflexivity).
  - now intros e [= ->].
  - intros e He. destruct (Hraise e He) as [_ ->].
    split; [reflexivity | discriminate].
  - discriminate.
  - intros e He. destruct (Hraise e He) as [-> ->]. now split.
Qed.

(** ** The state that a failing connection leaves *)

(** X16. [connect_to_server] sets [self.session] before the handshake:
    when the process cannot be spawned the client is left as it was,
    but once [initialize] has been attempted the session is set,
    whether the method then returns or raises. *)
Theorem connect_to_server_sets_session_first
    (path : str) (self : MCPClient) (h : History) :
  let run := connect_to_server env path self h in
  let params :=
    {| command := if endswith path (lit ".py") then lit "python"
                  else lit "node";
       args := [path] |} in
  endswith path (lit ".py") || endswith path (lit ".js") = true ->
  (forall e, events run = [EvStdioClient params (inl e)] ->
             self_after run = self)
  /\ (forall r, In (EvInitialize r) (events run) ->
                session (self_after run) = Some params).
Proof.
  cbv zeta. intros Hsup.
  pose proof (connect_to_server_cases env path self h Hsup) as Hc.
  cbv zeta in Hc.
  set (params := {| command := if endswith path (lit ".py")
                               then lit "python" else lit "node";
                    args := [path] |}) in *.
  destruct (stdio_client_reply env h params) as [e|u1].
  { rewrite Hc. split; [reflexivity|].
    intros r [H|[]]. discriminate H. }
  match type of Hc with context [client_session_reply env ?hh] =>
    destruct (client_session_reply env hh) as [e|u2] end.
  { rewrite Hc. split; [intros e' H; discriminate H|].
    intros r [H|[H|[]]]; discriminate H. }
  match type of Hc with context [initialize_reply env ?hh] =>
    destruct (initialize_reply env hh) as [e|u3] end.
  { rewrite Hc. split; [intros e' H; discriminate H | reflexivity]. }
  match type of Hc with context [list_tools_reply env ?hh] =>
    destruct (list_tools_reply env hh) as [e|ts] end;
    rewrite Hc; (split; [intros e' H; discriminate H | reflexivity]).
Qed.

(** ** What the loop lets through, and what it sends *)

Lemma run_bind_outcome {A B} (m : M A) (f : A -> M B) self h :
  outcome (bind m f self h)
  = match outcome (m self h) with
    | inl e => inl e
    | inr a =>
        outcome (f a (self_after (m self h)) (h ++ events (m self h)))
    end.
Proof.
  unfold bind, events, outcome, self_after.
  destruct (m self h) as [[[e|a] s1] evs1]; simpl; [reflexivity|].
  now destruct (f a s1 (h ++ evs1)) as [[r s2] evs2].
Qed.

Lemma report_raises (e0 e : Exception) (h : History) :
  report env e0 h = inl e -> print_reply env h (error_line env e0) = inl e.
Proof.
  unfold report.
  destruct (print_reply env h (error_line env e0)) as [e1|u];
    [now intros [= ->] | discriminate].
Qed.

Lemma chat_turn_raises (self : MCPClient) (h : History) (e : Exception) :
  outcome (chat_turn env self h) = inl e ->
  is_Exception e = true ->
  exists evs e0,
    events (chat_turn env self h) = evs ++ [EvPrint (error_line env e0)]
    /\ is_Exception e0 = true
    /\ print_reply env (h ++ evs) (error_line env e0) = inl e.
Proof.
  pose proof (chat_turn_cases self h) as Hc. cbv zeta in Hc.
  destruct (input_reply env h prompt) as [e0|line].
  { destruct (is_Exception e0) eqn:E0; rewrite Hc;
      cbn [outcome events fst snd]; intros Ho He.
    - apply report_raises in Ho.
      exists [EvInput prompt (inl e0)], e0. now conjs.
    - injection Ho as <-. congruence. }
  destruct (eqb (lower (strip line)) (lit "quit"));
    [rewrite Hc; discriminate|].
  set (q := process_query env (strip line) self
              (h ++ [EvInput prompt (inr line)])) in *.
  destruct (outcome q) as [e0|text].
  { destruct (is_Exception e0) eqn:E0; rewrite Hc;
      cbn [outcome events fst snd]; intros Ho He.
    - apply report_raises in Ho.
      exists (EvInput prompt (inr line) :: events q), e0. now conjs.
    - injection Ho as <-. congruence. }
  destruct (print_reply env (h ++ EvInput prompt (inr line) :: events q)
              (newline ++ text)) as [e0|u]; [|rewrite Hc; discriminate].
  destruct (is_Exception e0) eqn:E0; rewrite Hc;
    cbn [outcome events fst snd]; intros Ho He.
  - apply report_raises in Ho.
    exists (EvInput prompt (inr line)
              :: events q ++ [EvPrint (newline ++ text)]), e0.
    conjs; [|exact E0 | exact Ho].
    cbn [app]. now rewrite <- app_assoc.
  - injection Ho as <-. congruence.
Qed.

Lemma chat_turns_raises (turns : nat) :
  forall self h e,
  outcome (chat_turns env turns self h) = inl e ->
  is_Exception e = true ->
  exists evs e0,
    events (chat_turns env turns self h)
    = evs ++ [EvPrint (error_line env e0)]
    /\ is_Exception e0 = true
    /\ print_reply env (h ++ evs) (error_line env e0) = inl e.
Proof.
  induction turns as [|n IH]; intros self h e; [discriminate|].
  pose proof (run_surjective (chat_turn env self h)) as Hs.
  rewrite chat_turn_self in Hs.
  destruct (outcome (chat_turn env self h)) as [e0|stop] eqn:Ho.
  - simpl chat_turns.
    rewrite (@run_bind_raises _ _ (chat_turn env) _ self h _ _ _ Hs).
    cbn [outcome events fst snd]. intros [= <-] He.
    apply (chat_turn_raises self h Ho He).
  - rewrite (@chat_turns_succ n self h stop _ Hs).
    destruct stop; [discriminate|].
    cbn [outcome events fst snd]. intros Hr He.
    destruct (IH self _ e Hr He) as (evs & e0 & Hev & He0 & Hp).
    exists (events (chat_turn env self h) ++ evs), e0.
    rewrite Hev, !app_assoc. now conjs.
Qed.

(** X17. An [Exception] gets out of the chat loop through the console
    only.  Whatever the input, the tool process and the backend do,
    when [chat_loop] raises an [Exception] it is the one that its last
    [print] raised, and the line it was printing is one that the loop
    prints outside of its [try]: one of the two opening lines, or the
    error line of an [Exception] that the loop had caught. *)
Theorem chat_loop_lets_out_print_failures_only
    (turns : nat) (self : MCPClient) (h : History) (e : Exception) :
  let run := chat_loop env turns self h in
  outcome run = inl e ->
  is_Exception e = true ->
  exists evs text,
    events run = evs ++ [EvPrint text]
    /\ print_reply env (h ++ evs) text = inl e
    /\ (text = newline ++ [129302%N] ++ lit " MCP Client Started!"
        \/ text = lit "Type your query or 'quit' to exit."
        \/ exists e0,
             is_Exception e0 = true /\ text = error_line env e0).
Proof.
  cbv zeta.
  pose proof (chat_loop_cases turns self h) as Hc. cbv zeta in Hc.
  set (started := newline ++ [129302%N] ++ lit " MCP Client Started!") in *.
  set (hint := lit "Type your query or 'quit' to exit.") in *.
  destruct (print_reply env h started) as [e1|u1] eqn:H1.
  { rewrite Hc. cbn [outcome events fst snd]. intros [= <-] _.
    exists [], started. rewrite app_nil_r. now conjs; auto. }
  destruct (print_reply env (h ++ [EvPrint started]) hint) as [e2|u2] eqn:H2.
  { rewrite Hc. cbn [outcome events fst snd]. intros [= <-] _.
    exists [EvPrint started], hint. now conjs; auto. }
  rewrite Hc. cbn [outcome events fst snd]. intros Ho He.
  destruct (chat_turns_raises turns self _ Ho He)
    as (evs & e0 & Hev & He0 & Hp).
  exists (EvPrint started :: EvPrint hint :: evs), (error_line env e0).
  rewrite Hev. rewrite <- app_assoc in Hp. conjs; [reflexivity | exact Hp |].
  right. right. now exists e0.
Qed.

Lemma chat_turn_requests_self (self : MCPClient) (h : History)
    (req : CompletionRequest) :
  In req (requests (events (chat_turn env self h))) ->
  exists query h',
    In req (requests (events (process_query env query self h'))).
Proof.
  pose proof (chat_turn_cases self h) as Hc. cbv zeta in Hc.
  destruct (input_reply env h prompt) as [e|line].
  { destruct (is_Exception e); rewrite Hc; intros []. }
  destruct (eqb (lower (strip line)) (lit "quit"));
    [rewrite Hc; intros []|].
  intros Hin. exists (strip line), (h ++ [EvInput prompt (inr line)]).
  turn_cases Hc; rewrite Hc in Hin;
    unfold events at 1 in Hin; cbn [snd requests] in Hin;
    rewrite ?requests_app in Hin; cbn [requests] in Hin;
    rewrite ?app_nil_r in Hin; exact Hin.
Qed.

Lemma chat_turns_requests_self (turns : nat) :
  forall self h req,
  In req (requests (events (chat_turns env turns self h))) ->
  exists query h',
    In req (requests (events (process_query env query self h'))).
Proof.
  induction turns as [|n IH]; intros self h req Hin; [contradiction|].
  simpl chat_turns in Hin. rewrite run_bind_events, requests_app in Hin.
  apply in_app_or in Hin. destruct Hin as [Hin|Hin].
  - now apply chat_turn_requests_self in Hin.
  - rewrite chat_turn_self in Hin.
    destruct (outcome (chat_turn env self h)) as [e|[|]];
      try contradiction.
    now apply IH in Hin.
Qed.

(** X18. Every completion request of a chat session asks for at most
    1000 tokens from the deployment of the client, and sets
    [tool_choice] to "auto" when it offers tools and to nothing when it
    offers none. *)
Theorem chat_loop_requests_bounded
    (turns : nat) (self : MCPClient) (h : History)
    (req : CompletionRequest) :
  In req (requests (events (chat_loop env turns self h))) ->
  max_tokens req = 1000%N
  /\ model req = deployment self
  /\ (tool_choice req
      = match tools req with
        | Some _ => Some (lit "auto")
        | None => None
        end).
Proof.
  intros Hin. apply chat_loop_requests in Hin. destruct Hin as [h0 Hin].
  apply chat_turns_requests_self in Hin.
  destruct Hin as (query & h' & Hq).
  apply process_query_requests in Hq.
  destruct Hq as [(decls & ->)|(ps & -> & _)]; simpl; auto.
Qed.

(** X19. A query talks to the tool process and to the backend and to
    nothing else: the events of [process_query] are tool listings,
    completion requests and tool invocations; it prints nothing, reads
    no input, and neither opens nor closes a connection. *)
Theorem process_query_events_kinds
    (query : str) (self : MCPClient) (h : History) :
  Forall
    (fun e =>
       In (event_kind e) ["list_tools"; "create"; "call_tool"]%string)
    (events (process_query env query self h)).
Proof.
  rewrite process_query_events.
  assert (Hrounds : forall rounds msgs,
             Forall
               (fun e =>
                  In (event_kind e)
                     ["list_tools"; "create"; "call_tool"]%string)
               (rounds_trace env self msgs rounds)).
  { induction rounds as [|r rest IH]; intros msgs; simpl;
      [apply Forall_nil|].
    apply Forall_cons; [simpl; auto|].
    apply Forall_cons; [simpl; auto | apply IH]. }
  pose proof (process_query_lists_cases env query self h) as Hc.
  cbv zeta in Hc.
  destruct (session self) as [s|].
  2:{ destruct Hc as [e Hc]. rewrite Hc. apply Forall_nil. }
  destruct (list_tools_reply env h) as [e|ts].
  { rewrite Hc. repeat (apply Forall_cons; [simpl; auto|]).
    apply Forall_nil. }
  match type of Hc with context [create_reply env ?hh ?rq] =>
    destruct (create_reply env hh rq) as [e|resp] end.
  { rewrite Hc. repeat (apply Forall_cons; [simpl; auto|]).
    apply Forall_nil. }
  destruct (choices resp) as [|m ms].
  { destruct Hc as [e Hc]. rewrite Hc.
    repeat (apply Forall_cons; [simpl; auto|]). apply Forall_nil. }
  rewrite Hc. unfold events at 1. simpl snd.
  apply Forall_cons; [simpl; auto|]. apply Forall_cons; [simpl; auto|].
  match goal with |- context [tool_call_loop env ?c ?ms0 ?ft ?sf ?hh] =>
    destruct (tool_call_loop_shape env c ms0 ft sf hh)
      as (rounds & tail & Hev & _ & _ & _ & Htail & _)
  end.
  rewrite Hev. apply Forall_app. split; [apply Hrounds|].
  destruct Htail as [->|(e & (tc & a & _ & _ & ->) & _)];
    repeat (apply Forall_cons; [simpl; auto|]); apply Forall_nil.
Qed.

End MoreOnClient.

(* ===================================================================== *)
(** * More runs against the demo tool process *)
(* ===================================================================== *)

Section MoreRuns.

Lemma process_query_without_completion_witness :
  first_completion_message (events Demo.run_unconnected) = None
  /\ invoked (events Demo.run_unconnected) = []
  /\ length (requests (events Demo.run_unconnected)) <= 1.
Proof.
  assert (H : first_completion_message (events Demo.run_unconnected) = None)
    by (vm_compute; reflexivity).
  split; [exact H|].
  destruct (@process_query_without_completion (Demo.env []) (lit "hi")
              (init None) [] H) as (Hinv & Hreq & _).
  split; [exact Hinv | exact Hreq].
Defined.

Lemma process_query_text_witness :
  outcome Demo.run_two = inr Demo.text_two
  /\ exists rounds lines,
       map round_call rounds = pending_calls Demo.two_calls
       /\ Demo.text_two
          = join newline
              (lines ++ flat_map (round_lines (Demo.env [])) rounds).
Proof.
  assert (H : outcome Demo.run_two = inr Demo.text_two)
    by (vm_compute; reflexivity).
  split; [exact H|].
  destruct (@process_query_text (Demo.env [])
              (lit "echo hello and count a b c") Demo.connected []
              Demo.text_two H)
    as (ts & resp & m & rounds & Hm & Hcalls & Hev & Htext).
  assert (Hfirst : first_completion_message (events Demo.run_two) = Some m).
  { unfold Demo.run_two. rewrite Hev. exact Hm. }
  assert (Em : m = Demo.two_calls).
  { vm_compute in Hfirst. injection Hfirst as <-. reflexivity. }
  exists rounds, (append_content [] m). split; [|exact Htext].
  rewrite Hcalls, Em. reflexivity.
Defined.

Lemma process_query_invokes_in_order_witness :
  first_completion_message (events Demo.run_two) = Some Demo.two_calls
  /\ length (invoked (events Demo.run_two))
     <= length (pending_calls Demo.two_calls).
Proof.
  assert (H : first_completion_message (events Demo.run_two)
              = Some Demo.two_calls)
    by (vm_compute; reflexivity).
  split; [exact H|].
  exact (proj1 (@process_query_invokes_in_order (Demo.env [])
                  (lit "echo hello and count a b c") Demo.connected []
                  Demo.two_calls H)).
Defined.

Lemma chat_turn_answers_witness :
  chat_turn (Demo.env [lit " hi "]) Demo.connected []
  = (inr false, Demo.connected,
     EvInput prompt (inr (lit " hi "))
       :: events (process_query (Demo.env [lit " hi "]) (lit "hi")
                    Demo.connected [EvInput prompt (inr (lit " hi "))])
       ++ [EvPrint (newline ++ lit "Hello!")]).
Proof.
  pose proof (@chat_turn_answers (Demo.env [lit " hi "]) Demo.connected []
                (lit " hi ") eq_refl eq_refl) as H.
  cbv zeta in H. vm_compute in H. vm_compute. exact H.
Defined.

Lemma chat_loop_spins_at_end_of_input_witness :
  outcome (chat_turns (Demo.env []) 3 Demo.connected []) = inr false
  /\ requests (events (chat_turns (Demo.env []) 3 Demo.connected [])) = [].
Proof.
  assert (Hin : forall h',
             input_reply (Demo.env []) h' prompt
             = inl (EOFError (lit "EOF when reading a line"))).
  { intros h'. simpl. unfold Demo.read_line.
    now destruct (Demo.inputs_read h'). }
  rewrite (proj1 (@chat_loop_spins_at_end_of_input (Demo.env [])
                    (EOFError (lit "EOF when reading a line")) 3
                    Demo.connected [] Hin eq_refl)
             (fun _ => eq_refl)).
  split; reflexivity.
Defined.

Lemma chat_loop_quit_witness :
  chat_turns (Demo.env [Demo.quit_line]) 5 Demo.connected []
  = (inr true, Demo.connected, [EvInput prompt (inr Demo.quit_line)]).
Proof.
  apply (@chat_loop_quit (Demo.env [Demo.quit_line]) (lit "  ") (lit "QuIt")
           (lit " ") 4 Demo.connected []).
  - repeat constructor.
  - repeat constructor.
  - reflexivity.
  - reflexivity.
Defined.

Lemma main_usage_witness :
  main (Demo.env []) [lit "client.py"] 5 (init None) []
  = (inl (SystemExit 1), init None,
     [EvPrint (lit "Usage: python client.py <path_to_server_script>")]).
Proof.
  apply (@main_usage (Demo.env []) [lit "client.py"] 5 (init None) []).
  simpl. lia.
Defined.

Lemma main_cleans_up_witness :
  outcome Demo.run_main <> inr false
  /\ closes (events Demo.run_main) = 1
  /\ last (events Demo.run_main) (EvPrint []) = EvAclose.
Proof.
  assert (H : outcome Demo.run_main <> inr false)
    by (vm_compute; discriminate).
  split; [exact H|].
  destruct (@main_cleans_up (Demo.growing_env [lit "hi"; lit "quit"])
              (lit "client.py") (lit "demo_tools.py") [] 5
              (init (Some (lit "gpt-4o"))) [] H)
    as (evs & Hev & _ & Hone & _).
  split; [exact Hone|].
  unfold Demo.run_main. rewrite Hev.
  change (?b :: evs ++ [EvAclose]) with ((b :: evs) ++ [EvAclose]).
  apply last_last.
Defined.

(** Without an endpoint [main] ends in the constructor: nothing is
    spawned and nothing is closed. *)
Example main_without_endpoint :
  main Demo.keyless_env [lit "client.py"; lit "demo_tools.py"] 5
    (init None) []
  = (inl (ValueError (lit "Must provide the azure_endpoint argument")),
     init None,
     [EvAzureOpenAI
        (inl (ValueError (lit "Must provide the azure_endpoint argument")))]).
Proof. reflexivity. Qed.

(** A console that is closed lets the exception of [print] out of the
    handler of the chat loop, [main] closes the exit stack and raises
    it. *)
Example main_with_closed_console :
  outcome (main Demo.closed_env [lit "client.py"; lit "demo_tools.py"] 5
             (init None) [])
  = inl (ValueError (lit "I/O operation on closed file."))
  /\ map event_kind
       (events (main Demo.closed_env [lit "client.py"; lit "demo_tools.py"]
                  5 (init None) []))
     = ["AzureOpenAI"; "stdio_client"; "ClientSession"; "initialize";
        "list_tools"; "print"; "aclose"]%string.
Proof. split; vm_compute; reflexivity. Qed.

Lemma connect_to_server_sets_session_first_witness :
  session (self_after (connect_to_server (Demo.env []) (lit "server.js")
                         (init None) []))
  = Some {| command := lit "node"; args := [lit "server.js"] |}.
Proof.
  apply (proj2 (@connect_to_server_sets_session_first (Demo.env [])
                  (lit "server.js") (init None) [] eq_refl) (inr tt)).
  vm_compute. auto.
Defined.

Lemma chat_loop_lets_out_print_failures_only_witness :
  outcome (chat_loop Demo.closed_env 3 Demo.connected [])
  = inl (ValueError (lit "I/O operation on closed file."))
  /\ exists evs text,
       events (chat_loop Demo.closed_env 3 Demo.connected [])
       = evs ++ [EvPrint text]
       /\ print_reply Demo.closed_env ([] ++ evs) text
          = inl (ValueError (lit "I/O operation on closed file.")).
Proof.
  assert (H : outcome (chat_loop Demo.closed_env 3 Demo.connected [])
              = inl (ValueError (lit "I/O operation on closed file.")))
    by (vm_compute; reflexivity).
  split; [exact H|].
  destruct (@chat_loop_lets_out_print_failures_only Demo.closed_env 3
              Demo.connected []
              (ValueError (lit "I/O operation on closed file.")) H eq_refl)
    as (evs & text & Hev & Hp & _).
  now exists evs, text.
Defined.

Lemma chat_loop_requests_bounded_witness :
  In Demo.request_hi
     (requests (events (chat_loop (Demo.env [lit "hi"]) 1 Demo.connected [])))
  /\ max_tokens Demo.request_hi = 1000%N.
Proof.
  assert (H : In Demo.request_hi
                (requests (events (chat_loop (Demo.env [lit "hi"]) 1
                                     Demo.connected []))))
    by (vm_compute; auto).
  split; [exact H|].
  exact (proj1 (@chat_loop_requests_bounded (Demo.env [lit "hi"]) 1
                  Demo.connected [] Demo.request_hi H)).
Defined.

End MoreRuns.
